(** * laser-eye-finder: the beam detector of [src/hooks/useLaserDetector.ts]

    A shallow embedding of the detection core ([detectLaser]), the position
    smoother ([smoothPosition]), the per-frame step ([processFrame]) and the
    calibration sampler ([collectFrame] inside [startCalibration]), followed
    by the properties stated about them.

    Numbers.  JavaScript numbers are IEEE-754 doubles.  They are embedded as
    exact rationals plus a [NaN] element (type [num]); every arithmetic
    result is kept in lowest terms, which does not change its value.
    Rounding error of doubles is therefore idealised away, and the
    infinities are not represented: in the embedded code a zero divisor can
    only occur as 0/0, which is [NaN] in JavaScript as well.

    Where a double falls on the other side of a comparison than the exact
    value, the code and the embedding differ. This happens at exact
    boundaries only: [0.15 - sensitivityFactor * 0.1] and
    [bloomThreshold * 0.7] are exact here, whereas in doubles
    0.15 - 0.5 * 0.1 is 0.09999999999999999 and 180 * 0.7 is
    125.99999999999999; and a centroid quotient that is exactly n + 1/2
    here can be just below it in doubles, so that [Math.round] goes down
    where [round] goes up. The statement about the refined position (C5)
    therefore speaks of a nearest integer and leaves the direction at a tie
    open. *)

From Stdlib Require Import ZArith QArith Qround Qcanon List Bool Lia Lqa.
From Stdlib Require Import Strings.Byte.
Import ListNotations.

Open Scope Q_scope.

(** ** JavaScript numbers *)

Module JsNum.

Inductive num : Type :=
| NaN : num
| Num : Q -> num.

Definition ofZ (z : Z) : num := Num (inject_Z z).

Definition lift2 (f : Q -> Q -> Q) (a b : num) : num :=
  match a, b with
  | Num p, Num q => Num (Qred (f p q))
  | _, _ => NaN
  end.

Definition add : num -> num -> num := lift2 Qplus.
Definition sub : num -> num -> num := lift2 Qminus.
Definition mul : num -> num -> num := lift2 Qmult.

(** [a / b]; 0/0 is [NaN]. *)
Definition div (a b : num) : num :=
  match a, b with
  | Num p, Num q => if Qeq_bool q 0 then NaN else Num (Qred (p / q))
  | _, _ => NaN
  end.

(** Comparisons: every comparison with [NaN] is false. *)
Definition ltb (a b : num) : bool :=
  match a, b with
  | Num p, Num q => negb (Qle_bool q p)
  | _, _ => false
  end.

Definition leb (a b : num) : bool :=
  match a, b with
  | Num p, Num q => Qle_bool p q
  | _, _ => false
  end.

Definition gtb (a b : num) : bool := ltb b a.
Definition geb (a b : num) : bool := leb b a.

(** [Math.max], [Math.min]: [NaN] when an argument is [NaN]. *)
Definition max (a b : num) : num :=
  match a, b with
  | Num p, Num q => if Qle_bool p q then Num q else Num p
  | _, _ => NaN
  end.

Definition min (a b : num) : num :=
  match a, b with
  | Num p, Num q => if Qle_bool p q then Num p else Num q
  | _, _ => NaN
  end.

(** [Math.round]: the nearest integer, halves going up. *)
Definition round (a : num) : num :=
  match a with
  | Num p => ofZ (Qfloor (p + (1 # 2)))
  | NaN => NaN
  end.

(** Equality of values (two fractions may denote one number). *)
Definition same (a b : num) : Prop :=
  match a, b with
  | NaN, NaN => True
  | Num p, Num q => p == q
  | _, _ => False
  end.

End JsNum.

Import JsNum.

Declare Scope num_scope.
Delimit Scope num_scope with num.
Bind Scope num_scope with num.
Infix "+" := add : num_scope.
Infix "-" := sub : num_scope.
Infix "*" := mul : num_scope.
Infix "/" := div : num_scope.
Infix "<?" := ltb : num_scope.
Infix ">?" := gtb (at level 70) : num_scope.
Infix ">=?" := geb (at level 70) : num_scope.
Infix "<=?" := leb : num_scope.

(** ** Data model *)

Inductive ColorMode : Type := ModeRed | ModeGreen | ModeAuto.

Inductive Color : Type := Red | Green.

Record DetectorSettings : Type := mkSettings {
  sensitivity : num;   (* 0-100 *)
  colorMode : ColorMode;
  smoothing : num;     (* 0-10 *)
  flickerFilter : bool;
  mirror : bool;
  rotation : num       (* 0, 90, 180, 270 *)
}.

Record DetectionResult : Type := mkResult {
  found : bool;
  x : num;
  y : num;
  intensity : num;
  detectedColor : option Color
}.

(** [ImageData]: RGBA bytes (a [Uint8ClampedArray]), width and height. *)
Record ImageData : Type := mkImage {
  data : list byte;
  width : Z;
  height : Z
}.

Definition DEFAULT_SETTINGS : DetectorSettings :=
  mkSettings (Num 50) ModeAuto (Num 3) true false (Num 0).

(** [data[i]]: the byte as a number, [undefined] (hence [NaN] in arithmetic)
    outside the buffer. *)
Definition byteAt (d : list byte) (i : Z) : num :=
  if (i <? 0)%Z then NaN
  else match nth_error d (Z.to_nat i) with
       | Some b => ofZ (Z.of_N (Byte.to_N b))
       | None => NaN
       end.

(** The values [lo, lo+step, ...] below [hi], as a [for] loop visits them. *)
Definition range (lo hi step : Z) : list Z :=
  map (fun k => (lo + step * Z.of_nat k)%Z)
      (seq 0 (Z.to_nat ((hi - lo + step - 1) / step))).

Record Candidate : Type := mkCandidate {
  cx : Z;
  cy : Z;
  cr : num;
  cg : num;
  cb : num;
  score : num
}.

(** ** [detectLaser] *)

Definition step : Z := 2.
Definition bloomRadius : Z := 15.
Definition refineRadius : Z := 10.

Definition sensitivityFactor (settings : DetectorSettings) : num :=
  (sensitivity settings / Num 100)%num.

Definition saturationThreshold (settings : DetectorSettings) : num :=
  (Num 250 - sensitivityFactor settings * Num 50)%num.

Definition bloomThreshold (settings : DetectorSettings) : num :=
  (Num 200 - sensitivityFactor settings * Num 80)%num.

Definition minScore (settings : DetectorSettings) : num :=
  (Num 200 - sensitivityFactor settings * Num 100)%num.

Definition greenEnabled (m : ColorMode) : bool :=
  match m with ModeGreen | ModeAuto => true | ModeRed => false end.

Definition redEnabled (m : ColorMode) : bool :=
  match m with ModeRed | ModeAuto => true | ModeGreen => false end.

(** Mean of the three colour channels of the pixel at column [nx], row [ny]. *)
Definition brightnessAt (im : ImageData) (nx ny : Z) : num :=
  let ni := ((ny * width im + nx) * 4)%Z in
  ((byteAt (data im) ni + byteAt (data im) (ni + 1) + byteAt (data im) (ni + 2))
   / Num 3)%num.

(** The named conditions and scores of the scan loop, as functions of the
    channel values [r], [g], [b] of the pixel and of its [brightness]. *)
Definition greenDominance (r g b : num) : num := (g - max r b)%num.

Definition isSaturatedGreen (settings : DetectorSettings) (r g b : num) : bool :=
  (g >=? saturationThreshold settings)%num
  && ((greenDominance r g b >? Num 20)%num
      || ((g >? Num 250)%num && (r >? Num 200)%num && (b >? Num 150)%num)).

Definition isGreenBloom (settings : DetectorSettings) (r g b : num) : bool :=
  (g >? bloomThreshold settings)%num && (g >? r * Num 0.9)%num
  && (g >? b * Num 1.1)%num.

Definition greenScore (r g b brightness : num) : num :=
  (g + (if (greenDominance r g b >? Num 0)%num
        then greenDominance r g b * Num 2 else Num 0)
     + (if (brightness >? Num 250)%num then Num 100 else Num 0))%num.

Definition redDominance (r g b : num) : num := (r - max g b)%num.

Definition isSaturatedRed (settings : DetectorSettings) (r g b : num) : bool :=
  (r >=? saturationThreshold settings)%num
  && ((redDominance r g b >? Num 20)%num
      || ((r >? Num 250)%num && (g >? Num 150)%num && (b >? Num 100)%num)).

Definition isRedBloom (settings : DetectorSettings) (r g b : num) : bool :=
  (r >? bloomThreshold settings)%num && (r >? g * Num 1.2)%num
  && (r >? b * Num 1.3)%num.

Definition redScore (r g b brightness : num) : num :=
  (r + (if (redDominance r g b >? Num 0)%num
        then redDominance r g b * Num 2 else Num 0)
     + (if (brightness >? Num 250)%num then Num 100 else Num 0))%num.

(** The colour tests of the loop body on one pixel; the triple is
    [(isLaserCandidate, score, color)]. *)
Definition classify (settings : DetectorSettings) (r g b brightness : num)
    : bool * num * option Color :=
  let st0 : bool * num * option Color := (false, Num 0, None) in
  let st1 :=
    if greenEnabled (colorMode settings) then
      if isSaturatedGreen settings r g b || isGreenBloom settings r g b
      then (true, greenScore r g b brightness, Some Green)
      else st0
    else st0 in
  if redEnabled (colorMode settings) then
    if isSaturatedRed settings r g b || isRedBloom settings r g b then
      if (redScore r g b brightness >? snd (fst st1))%num
      then (true, redScore r g b brightness, Some Red)
      else st1
    else st1
  else st1.

(** The body of the scan loop for the pixel at column [px], row [py]:
    [Some c] when the pixel is pushed onto [candidates]. *)
Definition scanPixel (im : ImageData) (settings : DetectorSettings)
    (px py : Z) : option Candidate :=
  let i := ((py * width im + px) * 4)%Z in
  let r := byteAt (data im) i in
  let g := byteAt (data im) (i + 1) in
  let b := byteAt (data im) (i + 2) in
  let brightness := ((r + g + b) / Num 3)%num in
  if (brightness <? bloomThreshold settings)%num then None
  else
    let '(isLaserCandidate, sc, _) := classify settings r g b brightness in
    if isLaserCandidate && (sc >? Num 0)%num
    then Some (mkCandidate px py r g b sc)
    else None.

(** The two nested scan loops, pushing onto [candidates] in raster order. *)
Definition scanRow (im : ImageData) (settings : DetectorSettings)
    (candidates : list Candidate) (py : Z) : list Candidate :=
  fold_left
    (fun cands px =>
       match scanPixel im settings px py with
       | Some c => cands ++ [c]
       | None => cands
       end)
    (range 0 (width im) step) candidates.

Definition scanFrame (im : ImageData) (settings : DetectorSettings)
    : list Candidate :=
  fold_left (scanRow im settings) (range 0 (height im) step) [].

(** [candidates.sort((a, b) => b.score - a.score)]: a stable sort, so among
    equal scores the earlier candidate stays first. *)
Fixpoint insertByScore (c : Candidate) (l : list Candidate) : list Candidate :=
  match l with
  | [] => [c]
  | e :: l' =>
      if (score c - score e <? Num 0)%num then e :: insertByScore c l'
      else c :: l
  end.

Definition sortByScore (l : list Candidate) : list Candidate :=
  fold_right insertByScore [] l.

Definition outOfBounds (im : ImageData) (nx ny : Z) : bool :=
  ((nx <? 0) || (nx >=? width im) || (ny <? 0) || (ny >=? height im))%Z.

(** The bloom loops: [(bloomPixels, totalChecked)]. *)
Definition bloomSample (im : ImageData) (settings : DetectorSettings)
    (top : Candidate) (dy : Z) (acc : Z * Z) (dx : Z) : Z * Z :=
  let nx := (cx top + dx)%Z in
  let ny := (cy top + dy)%Z in
  if outOfBounds im nx ny then acc
  else
    let brightness := brightnessAt im nx ny in
    let '(bloomPixels, totalChecked) := acc in
    ((if (brightness >? bloomThreshold settings * Num 0.7)%num
      then bloomPixels + 1 else bloomPixels)%Z,
     (totalChecked + 1)%Z).

Definition bloomCount (im : ImageData) (settings : DetectorSettings)
    (top : Candidate) : Z * Z :=
  fold_left
    (fun acc dy =>
       fold_left (bloomSample im settings top dy)
                 (range (- bloomRadius) (bloomRadius + 1) 3) acc)
    (range (- bloomRadius) (bloomRadius + 1) 3) (0%Z, 0%Z).

Definition hasBloom (im : ImageData) (settings : DetectorSettings)
    (top : Candidate) : bool :=
  let '(bloomPixels, totalChecked) := bloomCount im settings top in
  let bloomRatio :=
    if (totalChecked >? 0)%Z then (ofZ bloomPixels / ofZ totalChecked)%num
    else Num 0 in
  (bloomRatio >? Num 0.15 - sensitivityFactor settings * Num 0.1)%num.

(** The refinement loops: [(sumX, sumY, sumWeight)]. *)
Definition refineSample (im : ImageData) (settings : DetectorSettings)
    (top : Candidate) (dy : Z) (acc : num * num * num) (dx : Z)
    : num * num * num :=
  let nx := (cx top + dx)%Z in
  let ny := (cy top + dy)%Z in
  if outOfBounds im nx ny then acc
  else
    let brightness := brightnessAt im nx ny in
    if (brightness >? saturationThreshold settings)%num then
      let weight := brightness in
      let '(sumX, sumY, sumWeight) := acc in
      ((sumX + ofZ nx * weight)%num, (sumY + ofZ ny * weight)%num,
       (sumWeight + weight)%num)
    else acc.

Definition refineSums (im : ImageData) (settings : DetectorSettings)
    (top : Candidate) : num * num * num :=
  fold_left
    (fun acc dy =>
       fold_left (refineSample im settings top dy)
                 (range (- refineRadius) (refineRadius + 1) 1) acc)
    (range (- refineRadius) (refineRadius + 1) 1) (Num 0, Num 0, Num 0).

Definition notFound : DetectionResult :=
  mkResult false (Num 0) (Num 0) (Num 0) None.

Definition topCandidate (im : ImageData) (settings : DetectorSettings)
    : option Candidate :=
  hd_error (sortByScore (scanFrame im settings)).

Definition detectLaser (im : ImageData) (settings : DetectorSettings)
    : DetectionResult :=
  match topCandidate im settings with
  | None => mkResult false (Num 0) (Num 0) (Num 0) None
  | Some top =>
      if (score top >? minScore settings)%num && hasBloom im settings top then
        let detectedColor :=
          if (cg top >? cr top)%num then Green else Red in
        let '(sumX, sumY, sumWeight) := refineSums im settings top in
        let '(maxX, maxY) :=
          if (sumWeight >? Num 0)%num
          then (round (sumX / sumWeight), round (sumY / sumWeight))
          else (ofZ (cx top), ofZ (cy top)) in
        mkResult true maxX maxY
                 (min (Num 100) (round (score top / Num 4)))
                 (Some detectedColor)
      else
        mkResult false (Num 0) (Num 0)
                 (min (Num 100) (round (Num 0 / Num 4))) None
  end.

(** Test frames: [w] x [h] pixels given as (r, g, b) triples, alpha 255. *)
Definition u8 (n : N) : byte :=
  match Byte.of_N n with Some b => b | None => "255"%byte end.

Definition rgba (p : N * N * N) : list byte :=
  let '(r, g, b) := p in [u8 r; u8 g; u8 b; u8 255].

Definition frameOf (w h : Z) (pixels : list (N * N * N)) : ImageData :=
  mkImage (flat_map rgba pixels) w h.

(** ** The hook's mutable references and [smoothPosition] *)

Record CalibrationData : Type := mkCalibration {
  avgBrightness : num;
  threshold : num
}.

(** [positionHistoryRef] and [calibrationDataRef]; a position is the pair
    of its [x] and [y]. *)
Record Refs : Type := mkRefs {
  positionHistoryRef : list (num * num);
  calibrationDataRef : option CalibrationData
}.

Definition lengthOf {A : Type} (l : list A) : num :=
  ofZ (Z.of_nat (length l)).

(** [smoothPosition(x, y, smoothing)] on the history it is given: the new
    history and the returned position. *)
Definition smoothPosition (history : list (num * num))
    (px py smoothing : num) : list (num * num) * (num * num) :=
  let pushed := history ++ [(px, py)] in
  let history' :=
    if (lengthOf pushed >? smoothing + Num 1)%num then tl pushed else pushed in
  if (length history' =? 0)%nat then (history', (px, py))
  else
    let avgX :=
      (fold_left (fun sum p => sum + fst p) history' (Num 0)
       / lengthOf history')%num in
    let avgY :=
      (fold_left (fun sum p => sum + snd p) history' (Num 0)
       / lengthOf history')%num in
    (history', (avgX, avgY)).

(** ** [processFrame]

    The part of [processFrame] between [getImageData] and the frame-rate
    bookkeeping: detect, then smooth or clear the history. *)
Definition processFrame (refs : Refs) (imageData : ImageData)
    (settings : DetectorSettings) : Refs * DetectionResult :=
  let detection := detectLaser imageData settings in
  if found detection && (smoothing settings >? Num 0)%num then
    let '(history', (sx, sy)) :=
      smoothPosition (positionHistoryRef refs) (x detection) (y detection)
                     (smoothing settings) in
    (mkRefs history' (calibrationDataRef refs),
     mkResult (found detection) sx sy (intensity detection)
              (detectedColor detection))
  else if negb (found detection) then
    (mkRefs [] (calibrationDataRef refs), detection)
  else (refs, detection).

(** ** [startCalibration] and its [collectFrame] *)

(** The closure variables of one calibration: [frames], [startTime] and the
    [settings.sensitivity] captured when the calibration was started. *)
Record CalibrationRun : Type := mkRun {
  frames : list num;
  startTime : Z;
  runSensitivity : num
}.

Definition startCalibration (refs : Refs) (settings : DetectorSettings)
    (now : Z) : Refs * CalibrationRun :=
  (mkRefs (positionHistoryRef refs) None,
   mkRun [] now (sensitivity settings)).

(** The brightness loop of [collectFrame] over [data], stepping by 4. *)
Definition frameBrightness (d : list byte) : num :=
  let totalBrightness :=
    fold_left
      (fun total i =>
         (total + (byteAt d i + byteAt d (i + 1) + byteAt d (i + 2)) / Num 3)%num)
      (range 0 (Z.of_nat (length d)) 4) (Num 0) in
  (totalBrightness / (lengthOf d / Num 4))%num.

(** One call of [collectFrame] on the frame read from the canvas at time
    [now]; the boolean tells whether another call was scheduled. *)
Definition collectFrame (refs : Refs) (run : CalibrationRun)
    (imageData : ImageData) (now : Z) : Refs * CalibrationRun * bool :=
  let frames' := frames run ++ [frameBrightness (data imageData)] in
  let run' := mkRun frames' (startTime run) (runSensitivity run) in
  if (now - startTime run <? 2000)%Z then (refs, run', true)
  else
    let avg :=
      (fold_left (fun a b => a + b) frames' (Num 0) / lengthOf frames')%num in
    (mkRefs (positionHistoryRef refs)
            (Some (mkCalibration avg
                     (avg + Num 50 + (Num 100 - runSensitivity run))%num)),
     run', false).

(** [collectFrame] called once per delivered frame until it stops
    rescheduling itself. *)
Fixpoint collectFrames (refs : Refs) (run : CalibrationRun)
    (inputs : list (ImageData * Z)) : Refs * CalibrationRun :=
  match inputs with
  | [] => (refs, run)
  | (imageData, now) :: rest =>
      let '(refs', run', again) := collectFrame refs run imageData now in
      if again then collectFrames refs' run' rest else (refs', run')
  end.

(** ** Notions used in the statements *)

(** How a call ends.  [detectLaser] contains no [throw] and calls nothing
    that throws, so every call of it completes normally. *)
Inductive Failure : Type := InvalidFrame.

Inductive Completion (A : Type) : Type :=
| Normal : A -> Completion A
| Throw : Failure -> Completion A.

Arguments Normal {A} _.
Arguments Throw {A} _.

Definition detectLaser_completion (im : ImageData) (settings : DetectorSettings)
    : Completion DetectionResult :=
  Normal (detectLaser im settings).

(** A frame without pixels, and a frame whose buffer is shorter than
    [width * height * 4] bytes. *)
Definition zeroSized (im : ImageData) : Prop :=
  (width im <= 0)%Z \/ (height im <= 0)%Z.

Definition shortBuffer (im : ImageData) : Prop :=
  (Z.of_nat (length (data im)) < width im * height im * 4)%Z.

(** The three colour channels of the pixel at column [px], row [py]. *)
Definition pixelAt (im : ImageData) (px py : Z) : num * num * num :=
  let i := ((py * width im + px) * 4)%Z in
  (byteAt (data im) i, byteAt (data im) (i + 1), byteAt (data im) (i + 2)).

Definition gray : num := Num 128.

(** Every pixel of the frame has R = G = B = 128. *)
Definition uniformGray (im : ImageData) : Prop :=
  forall px py : Z,
    (0 <= px < width im)%Z -> (0 <= py < height im)%Z ->
    pixelAt im px py = (gray, gray, gray).

(** Clamping to the nearest bound of [lo, hi], in the words of the
    specification; the source has no such function. *)
Definition spec_clamp (lo hi v : num) : num :=
  if (v <? lo)%num then lo else if (v >? hi)%num then hi else v.

Definition spec_clampSettings (settings : DetectorSettings) : DetectorSettings :=
  mkSettings (spec_clamp (Num 0) (Num 100) (sensitivity settings))
             (colorMode settings)
             (spec_clamp (Num 0) (Num 10) (smoothing settings))
             (flickerFilter settings) (mirror settings) (rotation settings).

Definition inRange (lo hi v : num) : Prop :=
  (v <? lo)%num = false /\ (v >? hi)%num = false.

(** [processFrame] on a sequence of frames, each with the settings in force
    when it arrives: the final references and the results in order. *)
Fixpoint processFrames (refs : Refs)
    (inputs : list (ImageData * DetectorSettings))
    : Refs * list DetectionResult :=
  match inputs with
  | [] => (refs, [])
  | (imageData, settings) :: rest =>
      let '(refs', detection) := processFrame refs imageData settings in
      let '(refs'', detections) := processFrames refs' rest in
      (refs'', detection :: detections)
  end.

(** The history after [smoothPosition] has been called on each of the
    positions [ps] in turn with one smoothing value. *)
Definition observeAll (smoothing : num) (history : list (num * num))
    (ps : list (num * num)) : list (num * num) :=
  fold_left (fun h p => fst (smoothPosition h (fst p) (snd p) smoothing))
            ps history.

(** The arithmetic mean of a list of numbers, in the words of the
    specification: their sum divided by their count. *)
Definition spec_sum (l : list num) : num := fold_left add l (Num 0).

Definition spec_mean (l : list num) : num := (spec_sum l / lengthOf l)%num.

(** The in-bounds pixels of the square of radius 10 around a candidate whose
    brightness exceeds [saturationThreshold], each with its brightness, in
    the words of the specification: the offsets -10 .. 10 in both axes. *)
Definition spec_neighbourhood (top : Candidate) : list (Z * Z) :=
  flat_map
    (fun dy =>
       map (fun dx => ((cx top + dx)%Z, (cy top + dy)%Z)) (range (-10) 11 1))
    (range (-10) 11 1).

Definition saturatedOf (im : ImageData) (settings : DetectorSettings)
    (l : list (Z * Z)) : list (Z * Z * num) :=
  filter (fun p => (snd p >? saturationThreshold settings)%num)
    (map (fun p => (p, brightnessAt im (fst p) (snd p)))
       (filter (fun p => negb (outOfBounds im (fst p) (snd p))) l)).

Definition spec_saturated (im : ImageData) (settings : DetectorSettings)
    (top : Candidate) : list (Z * Z * num) :=
  saturatedOf im settings (spec_neighbourhood top).

(** The brightness-weighted centroid of those pixels, not rounded: the sum
    of x * brightness and of y * brightness over the sum of brightness. *)
Definition spec_centroid (im : ImageData) (settings : DetectorSettings)
    (top : Candidate) : num * num :=
  let pixels := spec_saturated im settings top in
  let weights := map snd pixels in
  ((spec_sum (map (fun p => ofZ (fst (fst p)) * snd p)%num pixels)
    / spec_sum weights)%num,
   (spec_sum (map (fun p => ofZ (snd (fst p)) * snd p)%num pixels)
    / spec_sum weights)%num).

(** [z] is an integer nearest to the number [c]: no integer is closer. When
    [c] lies halfway between two integers both of them are nearest. *)
Definition nearestInteger (c : num) (z : Z) : Prop :=
  exists q : Q,
    c = Num q /\ inject_Z z - (1 # 2) <= q <= inject_Z z + (1 # 2).

(** The pixels of an RGBA buffer, and the mean over them of (R+G+B)/3, in
    the words of the specification. *)
Fixpoint spec_pixels (d : list byte) : list (byte * byte * byte) :=
  match d with
  | r :: g :: b :: _ :: rest => (r, g, b) :: spec_pixels rest
  | _ => []
  end.

Definition byteNum (b : byte) : num := ofZ (Z.of_N (Byte.to_N b)).

Definition pixelMean (p : byte * byte * byte) : num :=
  let '(r, g, b) := p in ((byteNum r + byteNum g + byteNum b) / Num 3)%num.

Definition spec_frameMean (d : list byte) : num :=
  spec_mean (map pixelMean (spec_pixels d)).

(** A buffer made of whole RGBA pixels. *)
Definition rgbaBuffer (d : list byte) : Prop :=
  exists n : nat, length d = (4 * n)%nat.

(** The body of the refinement loops as a function of the pixel visited. *)
Definition refineAt (im : ImageData) (settings : DetectorSettings)
    (acc : num * num * num) (p : Z * Z) : num * num * num :=
  let nx := fst p in
  let ny := snd p in
  if outOfBounds im nx ny then acc
  else
    let brightness := brightnessAt im nx ny in
    if (brightness >? saturationThreshold settings)%num then
      let weight := brightness in
      let '(sumX, sumY, sumWeight) := acc in
      ((sumX + ofZ nx * weight)%num, (sumY + ofZ ny * weight)%num,
       (sumWeight + weight)%num)
    else acc.

(** ** Sample inputs *)

Definition settingsWith (sens : Q) (mode : ColorMode) (smooth : Q)
    : DetectorSettings :=
  mkSettings (Num sens) mode (Num smooth) true false (Num 0).

Definition noRefs : Refs := mkRefs [] None.

Definition whitePixel : N * N * N := (255, 255, 255)%N.
Definition blackPixel : N * N * N := (0, 0, 0)%N.
Definition grayPixel : N * N * N := (128, 128, 128)%N.

(** One white pixel, at column 0 or at column 2 of a 3 x 1 frame. *)
Definition whiteAt0 : ImageData := frameOf 3 1 [whitePixel; blackPixel; blackPixel].
Definition whiteAt2 : ImageData := frameOf 3 1 [blackPixel; blackPixel; whitePixel].

(** Two white pixels, at columns 0 and 2 of a 5 x 1 frame. *)
Definition twoWhite : ImageData :=
  frameOf 5 1 [whitePixel; blackPixel; whitePixel; blackPixel; blackPixel].

(** A 2 x 2 frame of uniform gray. *)
Definition grayFrame : ImageData :=
  frameOf 2 2 [grayPixel; grayPixel; grayPixel; grayPixel].

(** A 1 x 1 frame with a dim greenish pixel. *)
Definition dimGreen : ImageData := frameOf 1 1 [(100, 130, 100)%N].

(** A frame declared 0 x 0, and a frame declared 3 x 1 that carries the
    bytes of one pixel only. *)
Definition emptyFrame : ImageData := mkImage [] 0 0.
Definition truncatedFrame : ImageData := frameOf 3 1 [whitePixel].

(** ** Further notions used in the statements *)

(** A candidate that lies on the scan grid inside the frame and records the
    channel values of its own pixel. *)
Definition onScanGrid (im : ImageData) (c : Candidate) : Prop :=
  (0 <= cx c < width im)%Z /\ (0 <= cy c < height im)%Z
  /\ Z.even (cx c) = true /\ Z.even (cy c) = true
  /\ pixelAt im (cx c) (cy c) = (cr c, cg c, cb c).

(** The channel values of a pixel as integers. *)
Definition pixelIs (im : ImageData) (px py : Z) (r g b : Z) : Prop :=
  pixelAt im px py = (ofZ r, ofZ g, ofZ b).

(** A frame all of whose pixels on the scan grid (even column, even row)
    satisfy [P] on their channel values; the other pixels are arbitrary. *)
Definition everyGridPixel (im : ImageData) (P : Z -> Z -> Z -> Prop) : Prop :=
  forall px py : Z,
    (0 <= px < width im)%Z -> (0 <= py < height im)%Z ->
    Z.even px = true -> Z.even py = true ->
    exists r g b : Z, pixelIs im px py r g b /\ P r g b.

(** Mean brightness below 120; green at most 0.9 of red and not above 250;
    red at most green and not above 250. *)
Definition dark (r g b : Z) : Prop := (r + g + b < 360)%Z.

Definition greenWeak (r g b : Z) : Prop := (10 * g <= 9 * r)%Z /\ (g <= 250)%Z.

Definition redWeak (r g b : Z) : Prop := (r <= g)%Z /\ (r <= 250)%Z.

(** Two buffers that agree on every byte that is not an alpha byte. *)
Definition sameColours (d d' : list byte) : Prop :=
  forall i : Z, (i mod 4 <> 3)%Z -> byteAt d i = byteAt d' i.

(** The last [n] elements of a list. *)
Definition lastn {A : Type} (n : nat) (l : list A) : list A :=
  skipn (length l - n) l.

(** A position inside a frame of [w] x [h] pixels. *)
Definition insideFrame (w h : Z) (p : num * num) : Prop :=
  exists qx qy : Q,
    p = (Num qx, Num qy)
    /\ 0 <= qx <= inject_Z (w - 1) /\ 0 <= qy <= inject_Z (h - 1).

(** A buffer every pixel of which has a mean brightness between [lo] and
    [hi]: lo <= (R + G + B) / 3 <= hi. *)
Definition brightnessWithin (lo hi : Q) (d : list byte) : Prop :=
  forall r g b : byte,
    In (r, g, b) (spec_pixels d) ->
    3 * lo <= inject_Z (Z.of_N (Byte.to_N r) + Z.of_N (Byte.to_N g)
                        + Z.of_N (Byte.to_N b)) <= 3 * hi.

(** ** Callers of the detector *)

(** [getMarkerPosition] of the camera view. [v || 1] is [v] unless [v] is 0
    or [NaN]; the video element, when present, is given by its
    [videoWidth] and [videoHeight]; [dimensions] is the size of the
    container on screen. *)
Definition orOne (v : num) : num :=
  match v with
  | NaN => Num 1
  | Num q => if Qeq_bool q 0 then Num 1 else v
  end.

Record Dimensions : Type := mkDimensions {
  dimWidth : num;
  dimHeight : num
}.

Definition getMarkerPosition (video : option (num * num))
    (dimensions : Dimensions) (detection : DetectionResult)
    (settings : DetectorSettings) : option (num * num) :=
  match video with
  | None => None
  | Some (vw, vh) =>
      if negb (found detection) then None
      else
        let videoWidth := orOne vw in
        let videoHeight := orOne vh in
        let scaleX := (dimWidth dimensions / videoWidth)%num in
        let scaleY := (dimHeight dimensions / videoHeight)%num in
        let mx := (x detection * scaleX)%num in
        let my := (y detection * scaleY)%num in
        let mx := if mirror settings then (dimWidth dimensions - mx)%num
                  else mx in
        Some (mx, my)
  end.

(** The remainder operator [a % b]: the result takes the sign of [a]. *)
Definition Qtruncate (q : Q) : Z :=
  if Qle_bool 0 q then Qfloor q else Qceiling q.

Definition rem (a b : num) : num :=
  match a, b with
  | Num p, Num q =>
      if Qeq_bool q 0 then NaN
      else Num (Qred (p - q * inject_Z (Qtruncate (p / q))))
  | _, _ => NaN
  end.

(** [handleRotation] of the settings panel: the settings it passes to
    [onSettingsChange]. *)
Definition handleRotation (settings : DetectorSettings) : DetectorSettings :=
  let nextRotation := rem (rotation settings + Num 90)%num (Num 360) in
  mkSettings (sensitivity settings) (colorMode settings) (smoothing settings)
             (flickerFilter settings) (mirror settings) nextRotation.

Definition rightAngle (v : num) : Prop :=
  v = Num 0 \/ v = Num 90 \/ v = Num 180 \/ v = Num 270.

(** The flags of the hook's state together with its references, and the
    updates the hook makes to them ([setState] and the assignments to the
    references). The fields [fps] and [error] of the state, which none of
    these updates reads, are left out. A frame event carries the frame and
    the settings in force and takes effect only while the camera is active
    and no calibration runs, as the frame effect is installed only then; a
    collect event carries the closure variables of the calibration it
    belongs to. *)
Record HookState : Type := mkHook {
  hookRefs : Refs;
  cameraActive : bool;
  calibrating : bool;
  calibrationComplete : bool;
  detection : DetectionResult
}.

Definition initialHook : HookState :=
  mkHook (mkRefs [] None) false false false
         (mkResult false (Num 0) (Num 0) (Num 0) None).

Inductive HookEvent : Type :=
| CameraStarted
| CameraStopped
| CalibrationStarted (settings : DetectorSettings) (now : Z)
| FrameCollected (run : CalibrationRun) (imageData : ImageData) (now : Z)
| FrameProcessed (imageData : ImageData) (settings : DetectorSettings).

Definition hookStep (st : HookState) (ev : HookEvent) : HookState :=
  match ev with
  | CameraStarted =>
      mkHook (hookRefs st) true (calibrating st) (calibrationComplete st)
             (detection st)
  | CameraStopped =>
      mkHook (hookRefs st) false (calibrating st) (calibrationComplete st)
             (detection st)
  | CalibrationStarted settings now =>
      mkHook (fst (startCalibration (hookRefs st) settings now))
             (cameraActive st) true false (detection st)
  | FrameCollected run imageData now =>
      let '(refs', _, again) := collectFrame (hookRefs st) run imageData now in
      if again then
        mkHook refs' (cameraActive st) (calibrating st)
               (calibrationComplete st) (detection st)
      else mkHook refs' (cameraActive st) false true (detection st)
  | FrameProcessed imageData settings =>
      if cameraActive st && negb (calibrating st) then
        let '(refs', d) := processFrame (hookRefs st) imageData settings in
        mkHook refs' (cameraActive st) (calibrating st)
               (calibrationComplete st) d
      else st
  end.

Definition hookRun (events : list HookEvent) : HookState :=
  fold_left hookStep events initialHook.

Definition hookInvariant (st : HookState) : Prop :=
  (calibrating st && calibrationComplete st = false)
  /\ (calibrationComplete st = true ->
      calibrationDataRef (hookRefs st) <> None).

(** ** The bloom samples *)

(** The pixels sampled by the bloom loops around a candidate, in the order
    of the loops, and the two tests of the loop body. *)
Definition bloomOffsets : list Z := range (- bloomRadius) (bloomRadius + 1) 3.

Definition bloomSamples (top : Candidate) : list (Z * Z) :=
  flat_map
    (fun dy => map (fun dx => ((cx top + dx)%Z, (cy top + dy)%Z)) bloomOffsets)
    bloomOffsets.

Definition sampleInside (im : ImageData) (p : Z * Z) : bool :=
  negb (outOfBounds im (fst p) (snd p)).

Definition sampleBright (im : ImageData) (settings : DetectorSettings)
    (p : Z * Z) : bool :=
  (brightnessAt im (fst p) (snd p) >? bloomThreshold settings * Num 0.7)%num.

(** A frame in which every pixel other than the one at ([x0], [y0]) has
    R + G + B <= 252, a mean brightness of at most 84. *)
Definition dimExcept (im : ImageData) (x0 y0 : Z) : Prop :=
  forall px py : Z,
    (0 <= px < width im)%Z -> (0 <= py < height im)%Z ->
    (px, py) <> (x0, y0) ->
    exists r g b : Z, pixelIs im px py r g b /\ (r + g + b <= 252)%Z.

(** A 16 x 16 frame, black but for a white pixel in its first corner. *)
Definition spotFrame : ImageData :=
  mkImage (rgba whitePixel ++ repeat "000"%byte 1020) 16 16.

(** A pixel all of whose three colour channels were read inside the buffer. *)
Definition defined3 (r g b : num) : Prop :=
  exists qr qg qb, r = Num qr /\ g = Num qg /\ b = Num qb.

(** * Properties *)

(** ** Facts about [num] *)

Section NumFacts.

Lemma ltb_Num (p q : Q) : (Num p <? Num q)%num = true <-> p < q.
Proof.
  simpl. rewrite negb_true_iff. split; intro H.
  - apply Qnot_le_lt. intro Hle. apply Qle_bool_iff in Hle. congruence.
  - destruct (Qle_bool q p) eqn:E; [|reflexivity].
    apply Qle_bool_iff in E. exfalso. apply (Qlt_not_le _ _ H E).
Qed.

Lemma ltb_Num_false (p q : Q) : (Num p <? Num q)%num = false <-> q <= p.
Proof.
  simpl. rewrite negb_false_iff. apply Qle_bool_iff.
Qed.

Lemma gtb_Num (p q : Q) : (Num p >? Num q)%num = true <-> q < p.
Proof. unfold gtb. apply ltb_Num. Qed.

Lemma gtb_Num_false (p q : Q) : (Num p >? Num q)%num = false <-> p <= q.
Proof. unfold gtb. apply ltb_Num_false. Qed.

Lemma leb_Num (p q : Q) : (Num p <=? Num q)%num = true <-> p <= q.
Proof. simpl. apply Qle_bool_iff. Qed.

Lemma gtb_true_inv (a b : num) :
  (a >? b)%num = true -> exists p q, a = Num p /\ b = Num q /\ q < p.
Proof.
  destruct a as [|p], b as [|q]; try discriminate.
  intro H. exists p, q. repeat split. now apply gtb_Num.
Qed.

Lemma gtb_NaN_l (b : num) : (NaN >? b)%num = false.
Proof. now destruct b. Qed.

Lemma gtb_NaN_r (a : num) : (a >? NaN)%num = false.
Proof. now destruct a. Qed.

Lemma Num_inj (p q : Q) : Num p = Num q -> p = q.
Proof. congruence. Qed.

Lemma same_refl (a : num) : same a a.
Proof. destruct a; simpl; [exact I | reflexivity]. Qed.

Lemma Qred_inject_Z (z : Z) : Qred (inject_Z z) = inject_Z z.
Proof.
  apply Qred_identity. simpl. apply Z.gcd_1_r.
Qed.

(** An integer is unchanged by adding it to 0 and by dividing by 1. *)
Lemma add_zero_ofZ (z : Z) : (Num 0 + ofZ z)%num = ofZ z.
Proof.
  unfold add, lift2, ofZ. f_equal.
  rewrite <- (Qred_inject_Z z) at 2. apply Qred_complete. ring.
Qed.

Lemma div_one_ofZ (z : Z) : (ofZ z / Num 1)%num = ofZ z.
Proof.
  unfold div, ofZ. change (Qeq_bool 1 0) with false. cbv iota. f_equal.
  rewrite <- (Qred_inject_Z z) at 2. apply Qred_complete. field.
Qed.

Lemma add_zero_same (a : num) : same (Num 0 + a)%num a.
Proof.
  destruct a as [|p]; [exact I|].
  unfold same, add, lift2. rewrite Qred_correct. ring.
Qed.

Lemma div_one_same (a : num) : same (a / Num 1)%num a.
Proof.
  destruct a as [|p]; [exact I|].
  unfold same, div. change (Qeq_bool 1 0) with false. cbv iota.
  rewrite Qred_correct. field.
Qed.

Lemma same_trans (a b c : num) : same a b -> same b c -> same a c.
Proof.
  destruct a, b, c; unfold same; try tauto. intros H1 H2. now rewrite H1.
Qed.

Lemma div_same (a a' b : num) : same a a' -> same (a / b)%num (a' / b)%num.
Proof.
  destruct a as [|p], a' as [|p'], b as [|q]; unfold same, div; try tauto.
  intro H. destruct (Qeq_bool q 0); [exact I|].
  rewrite !Qred_correct. now rewrite H.
Qed.

(** [Math.round] of a non-negative number is a non-negative integer. *)
Lemma round_nonneg (p : Q) :
  0 <= p -> exists z, round (Num p) = ofZ z /\ (0 <= z)%Z.
Proof.
  intro H. exists (Qfloor (p + (1 # 2))). split; [reflexivity|].
  change 0%Z with (Qfloor 0). apply Qfloor_resp_le. lra.
Qed.

Lemma min_100_range (z : Z) :
  (0 <= z)%Z ->
  exists z', min (Num 100) (ofZ z) = ofZ z' /\ (0 <= z' <= 100)%Z.
Proof.
  intro Hz. unfold min, ofZ.
  destruct (Qle_bool 100 (inject_Z z)) eqn:E.
  - exists 100%Z. split; [reflexivity | lia].
  - exists z. split; [reflexivity|]. split; [exact Hz|].
    destruct (Z.le_gt_cases z 100) as [Hle|Hgt]; [exact Hle|].
    assert (Hq : 100 <= inject_Z z).
    { change 100 with (inject_Z 100). rewrite <- Zle_Qle. lia. }
    apply Qle_bool_iff in Hq. congruence.
Qed.

End NumFacts.

(** ** Facts about the loops *)

Section LoopFacts.

Lemma range_bounds (lo hi st z : Z) :
  (0 < st)%Z -> In z (range lo hi st) -> (lo <= z < hi)%Z.
Proof.
  intros Hst Hin. unfold range in Hin.
  apply in_map_iff in Hin. destruct Hin as [k [Hz Hk]].
  apply in_seq in Hk. destruct Hk as [_ Hk]. rewrite Nat.add_0_l in Hk.
  set (n := ((hi - lo + st - 1) / st)%Z) in *.
  assert (Hk' : (Z.of_nat k < n)%Z) by lia.
  pose proof (Z.mul_div_le (hi - lo + st - 1) st Hst) as Hdiv.
  fold n in Hdiv. subst z.
  assert (H0 : (0 <= st * Z.of_nat k)%Z) by (apply Z.mul_nonneg_nonneg; lia).
  assert (H1 : (st * Z.of_nat k <= st * (n - 1))%Z)
    by (apply Z.mul_le_mono_nonneg_l; lia).
  lia.
Qed.

Lemma range_empty (lo hi st : Z) :
  (0 < st)%Z -> (hi <= lo)%Z -> range lo hi st = [].
Proof.
  intros Hst Hle. unfold range.
  assert (H : ((hi - lo + st - 1) / st < 1)%Z).
  { apply Z.div_lt_upper_bound; lia. }
  replace (Z.to_nat ((hi - lo + st - 1) / st)) with 0%nat by lia.
  reflexivity.
Qed.

Lemma fold_left_flat_map {A B C : Type} (f : A -> C -> A) (g : B -> list C)
    (l : list B) (a : A) :
  fold_left f (flat_map g l) a
  = fold_left (fun acc b => fold_left f (g b) acc) l a.
Proof.
  revert a. induction l as [|b l IH]; intro a; simpl; [reflexivity|].
  rewrite fold_left_app. apply IH.
Qed.

Lemma fold_left_map {A B C : Type} (f : A -> C -> A) (g : B -> C)
    (l : list B) (a : A) :
  fold_left f (map g l) a = fold_left (fun acc b => f acc (g b)) l a.
Proof.
  revert a. induction l as [|b l IH]; intro a; simpl; [reflexivity|].
  apply IH.
Qed.

Lemma fold_left_ext_in {A B : Type} (f g : A -> B -> A) (l : list B) (a : A) :
  (forall acc b, In b l -> f acc b = g acc b) ->
  fold_left f l a = fold_left g l a.
Proof.
  revert a. induction l as [|b l IH]; intros a H; simpl; [reflexivity|].
  rewrite H by (left; reflexivity). apply IH.
  intros acc b' Hin. apply H. right. exact Hin.
Qed.

End LoopFacts.

(** ** Facts about the candidate scan *)

Section ScanFacts.

Variable im : ImageData.
Variable settings : DetectorSettings.

Lemma byteAt_cases (d : list byte) (i : Z) :
  byteAt d i = NaN \/ exists z, (0 <= z)%Z /\ byteAt d i = ofZ z.
Proof.
  unfold byteAt. destruct (i <? 0)%Z; [now left|].
  destruct (nth_error d (Z.to_nat i)) as [b|]; [|now left].
  right. exists (Z.of_N (Byte.to_N b)). split; [lia | reflexivity].
Qed.

Lemma scanRow_In (py : Z) (c : Candidate) (acc : list Candidate) :
  In c (scanRow im settings acc py) ->
  In c acc \/
  exists px, In px (range 0 (width im) step)
             /\ scanPixel im settings px py = Some c.
Proof.
  unfold scanRow. generalize (range 0 (width im) step) as l.
  intro l. revert acc.
  induction l as [|px l IH]; intros acc H; simpl in H; [now left|].
  apply IH in H. destruct H as [H | [px' [Hin Hpx]]].
  - destruct (scanPixel im settings px py) as [c'|] eqn:E; [|now left].
    apply in_app_or in H. destruct H as [H | [H | []]]; [now left|].
    subst c'. right. exists px. split; [now left | exact E].
  - right. exists px'. split; [now right | exact Hpx].
Qed.

Lemma scanFrame_In (c : Candidate) :
  In c (scanFrame im settings) ->
  exists px py, In px (range 0 (width im) step)
                /\ In py (range 0 (height im) step)
                /\ scanPixel im settings px py = Some c.
Proof.
  unfold scanFrame.
  assert (G : forall l acc,
             In c (fold_left (scanRow im settings) l acc) ->
             In c acc \/
             exists px py, In px (range 0 (width im) step) /\ In py l
                           /\ scanPixel im settings px py = Some c).
  { induction l as [|py l IH]; intros acc H; simpl in H; [now left|].
    apply IH in H. destruct H as [H | [px [py' [Hx [Hy Hp]]]]].
    - apply scanRow_In in H. destruct H as [H | [px [Hx Hp]]]; [now left|].
      right. exists px, py. repeat split; [exact Hx | now left | exact Hp].
    - right. exists px, py'. repeat split; [exact Hx | now right | exact Hp]. }
  intro H. apply G in H. destruct H as [[] | H]. exact H.
Qed.

Lemma insertByScore_In (c e : Candidate) (l : list Candidate) :
  In e (insertByScore c l) <-> e = c \/ In e l.
Proof.
  induction l as [|a l IH]; simpl.
  - intuition congruence.
  - destruct (score c - score a <? Num 0)%num; simpl.
    + rewrite IH. intuition congruence.
    + intuition congruence.
Qed.

Lemma sortByScore_In (e : Candidate) (l : list Candidate) :
  In e (sortByScore l) <-> In e l.
Proof.
  induction l as [|a l IH]; simpl; [tauto|].
  rewrite insertByScore_In, IH. intuition congruence.
Qed.

Lemma sortByScore_nil (l : list Candidate) :
  sortByScore l = [] -> l = [].
Proof.
  destruct l as [|a l]; [reflexivity|]. intro H.
  assert (Hin : In a (sortByScore (a :: l))).
  { apply sortByScore_In. now left. }
  rewrite H in Hin. destruct Hin.
Qed.

(** The early return is taken exactly when no candidate was pushed. *)
Lemma topCandidate_None :
  topCandidate im settings = None <-> scanFrame im settings = [].
Proof.
  unfold topCandidate. split; intro H.
  - apply sortByScore_nil.
    destruct (sortByScore (scanFrame im settings)); [reflexivity|discriminate].
  - rewrite H. reflexivity.
Qed.

Lemma topCandidate_scanned (top : Candidate) :
  topCandidate im settings = Some top ->
  exists px py, In px (range 0 (width im) step)
                /\ In py (range 0 (height im) step)
                /\ scanPixel im settings px py = Some top.
Proof.
  unfold topCandidate. intro H. apply scanFrame_In.
  apply sortByScore_In.
  destruct (sortByScore (scanFrame im settings)) as [|a l]; [discriminate|].
  injection H as ->. now left.
Qed.

End ScanFacts.

(** ** Facts about one scanned pixel *)

Ltac num_cbn := cbn [add sub mul lift2 max greenDominance redDominance] in *.

Ltac bool_split :=
  repeat match goal with
         | H : (_ && _) = true |- _ =>
             apply andb_true_iff in H; destruct H
         | H : (_ || _) = true |- _ =>
             apply orb_true_iff in H; destruct H
         end.

(** A comparison that holds has numbers on both sides. *)
Ltac defined_by H :=
  apply gtb_true_inv in H;
  let p := fresh "p" in
  let q := fresh "q" in
  let Hp := fresh "Hp" in
  let Hq := fresh "Hq" in
  destruct H as [p [q [Hp [Hq _]]]];
  try discriminate Hp; try discriminate Hq.

Section PixelFacts.

Variable settings : DetectorSettings.

Lemma greenHit_defined (r g b : num) :
  isSaturatedGreen settings r g b || isGreenBloom settings r g b = true ->
  defined3 r g b.
Proof.
  unfold isSaturatedGreen, isGreenBloom, defined3. intro H.
  destruct r as [|qr], g as [|qg], b as [|qb];
    try (exfalso; bool_split; num_cbn;
         match goal with
         | H : (_ >? _)%num = true |- _ => solve [defined_by H]
         end).
  exists qr, qg, qb. auto.
Qed.

Lemma redHit_defined (r g b : num) :
  isSaturatedRed settings r g b || isRedBloom settings r g b = true ->
  defined3 r g b.
Proof.
  unfold isSaturatedRed, isRedBloom, defined3. intro H.
  destruct r as [|qr], g as [|qg], b as [|qb];
    try (exfalso; bool_split; num_cbn;
         match goal with
         | H : (_ >? _)%num = true |- _ => solve [defined_by H]
         end).
  exists qr, qg, qb. auto.
Qed.

Lemma max_nonneg (p q : Q) :
  0 <= p -> 0 <= q -> exists m, max (Num p) (Num q) = Num m /\ 0 <= m.
Proof.
  intros Hp Hq. unfold max. destruct (Qle_bool p q); eauto.
Qed.

(** A positive score of a pixel with non-negative channels: the leading
    channel is positive, or the pixel is brighter than 250. *)
Lemma score_pos (lead other1 other2 brightness : Q) (dom : num) (sc : Q) :
  0 <= other1 -> 0 <= other2 ->
  dom = (Num lead - max (Num other1) (Num other2))%num ->
  (Num lead + (if (dom >? Num 0)%num then dom * Num 2 else Num 0)
   + (if (Num brightness >? Num 250)%num then Num 100 else Num 0))%num
  = Num sc ->
  0 < sc -> 0 < lead \/ 250 < brightness.
Proof.
  intros H1 H2 Hdom Hsc Hpos.
  destruct (Num brightness >? Num 250)%num eqn:Eb.
  { right. now apply gtb_Num in Eb. }
  left. destruct (max_nonneg _ _ H1 H2) as [m [Hm Hm0]].
  rewrite Hm in Hdom. num_cbn. subst dom.
  destruct (Num (Qred (lead - m)) >? Num 0)%num eqn:Ed.
  - apply gtb_Num in Ed. rewrite Qred_correct in Ed. lra.
  - num_cbn. apply Num_inj in Hsc. subst sc.
    rewrite !Qred_correct in Hpos. lra.
Qed.

(** A pixel that [classify] flags with a positive score has three defined
    channels and, when these are non-negative, is not black. *)
Lemma classify_candidate (r g b brightness sc : num) (col : option Color) :
  classify settings r g b brightness = (true, sc, col) ->
  defined3 r g b
  /\ (sc = greenScore r g b brightness \/ sc = redScore r g b brightness).
Proof.
  unfold classify.
  destruct (greenEnabled (colorMode settings));
    destruct (redEnabled (colorMode settings));
    destruct (isSaturatedGreen settings r g b || isGreenBloom settings r g b)
      eqn:EG;
    destruct (isSaturatedRed settings r g b || isRedBloom settings r g b)
      eqn:ER;
    cbn [fst snd];
    try match goal with
        | |- context [if ?c then _ else _] => destruct c
        end;
    intro H; inversion H; subst;
    first [ split; [now apply greenHit_defined | now left]
          | split; [now apply redHit_defined | now right] ].
Qed.

End PixelFacts.

Section CandidateFacts.

Variable im : ImageData.
Variable settings : DetectorSettings.

Lemma brightness_of_bytes (zr zg zb : Z) :
  exists q, ((ofZ zr + ofZ zg + ofZ zb) / Num 3)%num = Num q
            /\ 3 * q == inject_Z zr + inject_Z zg + inject_Z zb.
Proof.
  unfold ofZ. num_cbn. unfold div. change (Qeq_bool 3 0) with false.
  cbv iota. eexists. split; [reflexivity|].
  rewrite !Qred_correct. field.
Qed.

(** What is known of a pushed candidate: it records the scanned pixel, its
    score is positive, and the pixel's brightness is a positive number. *)
Lemma scanPixel_Some (px py : Z) (c : Candidate) :
  scanPixel im settings px py = Some c ->
  cx c = px /\ cy c = py
  /\ (exists sc, score c = Num sc /\ 0 < sc)
  /\ (exists q, brightnessAt im px py = Num q /\ 0 < q).
Proof.
  unfold scanPixel, brightnessAt.
  set (i := ((py * width im + px) * 4)%Z).
  destruct (_ <? bloomThreshold settings)%num; [discriminate|].
  destruct (classify _ _ _ _ _) as [[isC sc] col] eqn:Ecl.
  destruct isC; [|discriminate]. cbn [andb].
  destruct (sc >? Num 0)%num eqn:Esc; [|discriminate].
  intro H. injection H as <-. cbn [cx cy score].
  apply gtb_true_inv in Esc. destruct Esc as [s [z [Hs [Hz Hpos]]]].
  apply Num_inj in Hz. subst z sc.
  split; [reflexivity|]. split; [reflexivity|].
  split; [exists s; split; [reflexivity | exact Hpos]|].
  apply classify_candidate in Ecl. destruct Ecl as [Hdef Hscore].
  destruct Hdef as [qr [qg [qb [Hr [Hg Hb]]]]].
  destruct (byteAt_cases (data im) i) as [E|[zr [Hzr Er]]];
    [congruence|].
  destruct (byteAt_cases (data im) (i + 1)) as [E|[zg [Hzg Eg]]];
    [congruence|].
  destruct (byteAt_cases (data im) (i + 2)) as [E|[zb [Hzb Eb]]];
    [congruence|].
  rewrite Er, Eg, Eb in *.
  destruct (brightness_of_bytes zr zg zb) as [q [Hq Hqv]].
  rewrite Hq in *. exists q. split; [reflexivity|].
  rewrite Zle_Qle in Hzr, Hzg, Hzb. change (inject_Z 0) with 0 in *.
  assert (Hlead : 0 < inject_Z zg \/ 0 < inject_Z zr \/ 250 < q).
  { destruct Hscore as [Hscore | Hscore]; symmetry in Hscore.
    - unfold greenScore in Hscore.
      destruct (score_pos _ _ _ _ _ _ Hzr Hzb eq_refl Hscore Hpos); tauto.
    - unfold redScore in Hscore.
      destruct (score_pos _ _ _ _ _ _ Hzg Hzb eq_refl Hscore Hpos); tauto. }
  lra.
Qed.

End CandidateFacts.

(** ** Sample runs *)

Example detect_white_pixel :
  detectLaser (frameOf 1 1 [(255, 255, 255)%N]) DEFAULT_SETTINGS
  = mkResult true (Num 0) (Num 0) (Num 89) (Some Red).
Proof. vm_compute. reflexivity. Qed.

Example detect_second_white_pixel :
  detectLaser (frameOf 3 1 [(0, 0, 0); (0, 0, 0); (255, 255, 255)]%N)
              DEFAULT_SETTINGS
  = mkResult true (Num 2) (Num 0) (Num 89) (Some Red).
Proof. vm_compute. reflexivity. Qed.


(** ** The result of [detectLaser] *)

Section DetectFacts.

Variable im : ImageData.
Variable settings : DetectorSettings.

(** The intensity reported when nothing is found. *)
Lemma intensity_zero : min (Num 100) (round (Num 0 / Num 4)) = Num 0.
Proof. vm_compute. reflexivity. Qed.

(** The two ways [detectLaser] can end. *)
Lemma detectLaser_cases :
  detectLaser im settings = notFound
  \/ exists top px py,
       topCandidate im settings = Some top
       /\ ((score top >? minScore settings)%num && hasBloom im settings top
           = true)
       /\ found (detectLaser im settings) = true
       /\ intensity (detectLaser im settings)
          = min (Num 100) (round (score top / Num 4))
       /\ (x (detectLaser im settings), y (detectLaser im settings))
          = (let '(sumX, sumY, sumWeight) := refineSums im settings top in
             if (sumWeight >? Num 0)%num
             then (round (sumX / sumWeight), round (sumY / sumWeight))
             else (ofZ (cx top), ofZ (cy top)))
       /\ In px (range 0 (width im) step)
       /\ In py (range 0 (height im) step)
       /\ scanPixel im settings px py = Some top.
Proof.
  unfold detectLaser.
  destruct (topCandidate im settings) as [top|] eqn:Etop; [|now left].
  destruct ((score top >? minScore settings)%num && hasBloom im settings top)
    eqn:Echeck.
  - right. destruct (topCandidate_scanned _ _ _ Etop) as [px [py [Hx [Hy Hp]]]].
    exists top, px, py.
    destruct (refineSums im settings top) as [[sumX sumY] sumWeight].
    destruct (sumWeight >? Num 0)%num; cbn [found intensity x y];
      repeat split; assumption.
  - left. rewrite intensity_zero. reflexivity.
Qed.

Lemma found_not_notFound :
  found (detectLaser im settings) = true ->
  detectLaser im settings <> notFound.
Proof.
  intros H E. rewrite E in H. discriminate.
Qed.

End DetectFacts.

(** ** C10, C6: the shape of the result *)

(** C10. Whenever [detectLaser] reports [found = false], whether by the
    early return on an empty candidate list or because the top candidate
    failed the bloom or the score check, the result is exactly
    x = 0, y = 0, intensity = 0, detectedColor = null. *)
Theorem C10_not_found_is_zero (im : ImageData) (settings : DetectorSettings) :
  found (detectLaser im settings) = false ->
  detectLaser im settings
  = mkResult false (Num 0) (Num 0) (Num 0) None.
Proof.
  intro H. destruct (detectLaser_cases im settings) as [E | E].
  - exact E.
  - destruct E as [top [px [py [_ [_ [Hf _]]]]]]. congruence.
Qed.

Lemma C10_not_found_is_zero_witness :
  found (detectLaser grayFrame DEFAULT_SETTINGS) = false
  /\ detectLaser grayFrame DEFAULT_SETTINGS
     = mkResult false (Num 0) (Num 0) (Num 0) None.
Proof.
  split; [reflexivity|].
  apply (C10_not_found_is_zero grayFrame DEFAULT_SETTINGS). reflexivity.
Defined.

(** C6. When [detectLaser] reports [found = true] the intensity is
    [min(100, round(score / 4))] for the score of the top candidate, and in
    every case the intensity is an integer between 0 and 100. *)
Theorem C6_intensity (im : ImageData) (settings : DetectorSettings) :
  (found (detectLaser im settings) = true ->
   exists top,
     topCandidate im settings = Some top
     /\ intensity (detectLaser im settings)
        = min (Num 100) (round (score top / Num 4)))
  /\ exists z : Z,
       intensity (detectLaser im settings) = ofZ z /\ (0 <= z <= 100)%Z.
Proof.
  destruct (detectLaser_cases im settings) as [E | E].
  - rewrite E. split; [discriminate|]. exists 0%Z. split; [reflexivity | lia].
  - destruct E as [top [px [py [Etop [_ [_ [Hi [_ [_ [_ Hp]]]]]]]]]].
    split; [intros _; exists top; split; assumption|].
    rewrite Hi. apply scanPixel_Some in Hp.
    destruct Hp as [_ [_ [[sc [Hsc Hpos]] _]]]. rewrite Hsc.
    unfold div. change (Qeq_bool 4 0) with false. cbv iota.
    destruct (round_nonneg (Qred (sc / 4))) as [z [Hz Hz0]].
    { rewrite Qred_correct. apply Qlt_le_weak. apply Qlt_shift_div_l; lra. }
    rewrite Hz. apply min_100_range. exact Hz0.
Qed.

Lemma C6_intensity_witness :
  found (detectLaser whiteAt2 DEFAULT_SETTINGS) = true
  /\ exists top,
       topCandidate whiteAt2 DEFAULT_SETTINGS = Some top
       /\ intensity (detectLaser whiteAt2 DEFAULT_SETTINGS)
          = min (Num 100) (round (score top / Num 4)).
Proof.
  split; [reflexivity|].
  apply (proj1 (C6_intensity whiteAt2 DEFAULT_SETTINGS)). reflexivity.
Defined.

(** ** C2: frames without pixels, frames with a short buffer *)

Lemma scanFrame_zeroSized (im : ImageData) (settings : DetectorSettings) :
  zeroSized im -> scanFrame im settings = [].
Proof.
  unfold zeroSized, scanFrame. intros [Hw | Hh].
  - assert (Hrow : forall acc py, scanRow im settings acc py = acc).
    { intros acc py. unfold scanRow.
      rewrite (range_empty 0 (width im) step) by (unfold step; lia).
      reflexivity. }
    generalize (range 0 (height im) step) as l.
    induction l as [|py l IH]; simpl; [reflexivity|].
    rewrite Hrow. exact IH.
  - rewrite (range_empty 0 (height im) step) by (unfold step; lia).
    reflexivity.
Qed.




Example truncatedFrame_detected :
  shortBuffer truncatedFrame
  /\ detectLaser truncatedFrame DEFAULT_SETTINGS
     = mkResult true (Num 0) (Num 0) (Num 89) (Some Red).
Proof.
  split; [unfold shortBuffer; simpl; lia | vm_compute; reflexivity].
Qed.

(** ** C4: a uniform gray frame *)

Section GrayFacts.

Variable settings : DetectorSettings.

Lemma gray_not_saturated_green : isSaturatedGreen settings gray gray gray = false.
Proof. unfold isSaturatedGreen. apply andb_false_intro2. reflexivity. Qed.

Lemma gray_not_green_bloom : isGreenBloom settings gray gray gray = false.
Proof. unfold isGreenBloom. apply andb_false_intro2. reflexivity. Qed.

Lemma gray_not_saturated_red : isSaturatedRed settings gray gray gray = false.
Proof. unfold isSaturatedRed. apply andb_false_intro2. reflexivity. Qed.

Lemma gray_not_red_bloom : isRedBloom settings gray gray gray = false.
Proof.
  unfold isRedBloom. apply andb_false_intro1. apply andb_false_intro2.
  reflexivity.
Qed.

Lemma classify_gray (brightness : num) :
  classify settings gray gray gray brightness = (false, Num 0, None).
Proof.
  unfold classify.
  rewrite gray_not_saturated_green, gray_not_green_bloom,
    gray_not_saturated_red, gray_not_red_bloom.
  destruct (greenEnabled (colorMode settings));
    destruct (redEnabled (colorMode settings)); reflexivity.
Qed.

Lemma scanPixel_gray (im : ImageData) (px py : Z) :
  pixelAt im px py = (gray, gray, gray) -> scanPixel im settings px py = None.
Proof.
  unfold pixelAt, scanPixel. intro H. injection H as Hr Hg Hb.
  rewrite Hr, Hg, Hb.
  destruct (_ <? bloomThreshold settings)%num; [reflexivity|].
  rewrite classify_gray. reflexivity.
Qed.

Lemma scanFrame_gray (im : ImageData) :
  uniformGray im -> scanFrame im settings = [].
Proof.
  intro Hgray.
  destruct (scanFrame im settings) as [|c l] eqn:E; [reflexivity|].
  assert (Hin : In c (scanFrame im settings)) by (rewrite E; now left).
  apply scanFrame_In in Hin. destruct Hin as [px [py [Hx [Hy Hp]]]].
  apply range_bounds in Hx; [|unfold step; lia].
  apply range_bounds in Hy; [|unfold step; lia].
  rewrite (scanPixel_gray im px py) in Hp; [discriminate|].
  apply Hgray; assumption.
Qed.

End GrayFacts.

(** C4. A frame all of whose pixels have R = G = B = 128 yields
    [found = false], for every sensitivity (inside 0-100 or not) and every
    colour mode. *)
Theorem C4_uniform_gray_not_found (im : ImageData)
    (settings : DetectorSettings) :
  uniformGray im -> found (detectLaser im settings) = false.
Proof.
  intro H. unfold detectLaser.
  assert (E : topCandidate im settings = None).
  { apply topCandidate_None. now apply scanFrame_gray. }
  rewrite E. reflexivity.
Qed.

Lemma grayFrame_uniform : uniformGray grayFrame.
Proof.
  intros px py Hx Hy. simpl in Hx, Hy.
  assert (Hpx : px = 0%Z \/ px = 1%Z) by lia.
  assert (Hpy : py = 0%Z \/ py = 1%Z) by lia.
  destruct Hpx as [-> | ->]; destruct Hpy as [-> | ->]; reflexivity.
Qed.

Lemma C4_uniform_gray_not_found_witness :
  uniformGray grayFrame
  /\ found (detectLaser grayFrame (settingsWith 100 ModeAuto 3)) = false.
Proof.
  split; [exact grayFrame_uniform|].
  exact (C4_uniform_gray_not_found grayFrame (settingsWith 100 ModeAuto 3)
           grayFrame_uniform).
Defined.

(** ** C1: calibration and detection *)

(** [processFrame] passes the calibration reference through untouched and
    never reads it. *)
Lemma processFrame_calibration (history : list (num * num))
    (c1 c2 : option CalibrationData) (im : ImageData)
    (settings : DetectorSettings) :
  snd (processFrame (mkRefs history c1) im settings)
  = snd (processFrame (mkRefs history c2) im settings)
  /\ positionHistoryRef (fst (processFrame (mkRefs history c1) im settings))
     = positionHistoryRef (fst (processFrame (mkRefs history c2) im settings))
  /\ calibrationDataRef (fst (processFrame (mkRefs history c1) im settings))
     = c1.
Proof.
  unfold processFrame. cbn [positionHistoryRef calibrationDataRef].
  destruct (found (detectLaser im settings) && (smoothing settings >? Num 0)%num).
  - destruct (smoothPosition history _ _ _) as [h [sx sy]]. cbn. auto.
  - destruct (negb (found (detectLaser im settings))); cbn; auto.
Qed.



(** A calibration state with a threshold no pixel can reach changes
    nothing. *)
Example calibrated_white_pixel :
  snd (processFrame (mkRefs [] (Some (mkCalibration (Num 255) (Num 1000))))
                    whiteAt0 DEFAULT_SETTINGS)
  = mkResult true (Num 0) (Num 0) (Num 89) (Some Red).
Proof. vm_compute. reflexivity. Qed.

(** ** C3: settings outside their ranges *)

(** [detectLaser] reads [sensitivity] and [colorMode] only. *)
Lemma detectLaser_settings (im : ImageData) (s s' : DetectorSettings) :
  sensitivity s = sensitivity s' -> colorMode s = colorMode s' ->
  detectLaser im s = detectLaser im s'.
Proof.
  destruct s as [sens mode sm ff mi ro], s' as [sens' mode' sm' ff' mi' ro'].
  cbn [sensitivity colorMode]. intros <- <-.
  unfold detectLaser, topCandidate, hasBloom, bloomCount, bloomSample,
    refineSums, refineSample, scanFrame, scanRow, scanPixel, classify,
    isSaturatedGreen, isGreenBloom, isSaturatedRed, isRedBloom, minScore,
    saturationThreshold, bloomThreshold, sensitivityFactor.
  cbn [sensitivity colorMode]. reflexivity.
Qed.

Lemma spec_clamp_inRange (lo hi v : num) :
  inRange lo hi v -> spec_clamp lo hi v = v.
Proof.
  unfold inRange, spec_clamp. intros [-> ->]. reflexivity.
Qed.

(** C3, as the code has it. Settings are used as they are given, without
    clamping and without rejection. Where [sensitivity] lies in 0-100 and
    [smoothing] does not exceed 10, [processFrame] behaves exactly as on the
    clamped settings; in particular a [smoothing] below 0 acts as 0. *)
Theorem C3_settings_used_unclamped (refs : Refs) (im : ImageData)
    (settings : DetectorSettings) :
  inRange (Num 0) (Num 100) (sensitivity settings) ->
  (smoothing settings >? Num 10)%num = false ->
  processFrame refs im settings
  = processFrame refs im (spec_clampSettings settings).
Proof.
  intros Hsens Hsm. unfold processFrame.
  rewrite <- (detectLaser_settings im settings (spec_clampSettings settings)).
  - unfold spec_clampSettings at 1 2. cbn [smoothing].
    unfold spec_clamp. rewrite Hsm.
    destruct (smoothing settings <? Num 0)%num eqn:Eneg; [|reflexivity].
    change (Num 0 >? Num 0)%num with false.
    assert (E : (smoothing settings >? Num 0)%num = false).
    { destruct (smoothing settings) as [|q]; [reflexivity|].
      apply ltb_Num in Eneg. apply gtb_Num_false. lra. }
    rewrite E, !andb_false_r. reflexivity.
  - cbn [spec_clampSettings sensitivity]. symmetry.
    now apply spec_clamp_inRange.
  - reflexivity.
Qed.

Lemma C3_settings_used_unclamped_witness :
  processFrame noRefs whiteAt2 (settingsWith 50 ModeAuto (-3))
  = processFrame noRefs whiteAt2
                 (spec_clampSettings (settingsWith 50 ModeAuto (-3))).
Proof.
  apply (C3_settings_used_unclamped noRefs whiteAt2
           (settingsWith 50 ModeAuto (-3))).
  - split; reflexivity.
  - reflexivity.
Defined.

(** C3, as stated, fails. With sensitivity 200 a dim pixel is detected
    that sensitivity 100 rejects; with smoothing 11 the history holds twelve
    positions where smoothing 10 holds eleven, and the mean differs. *)
Lemma C3_out_of_range_not_clamped :
  snd (processFrame noRefs dimGreen (settingsWith 200 ModeAuto 3))
  <> snd (processFrame noRefs dimGreen
            (spec_clampSettings (settingsWith 200 ModeAuto 3)))
  /\ (let frames12 := whiteAt2 :: repeat whiteAt0 11 in
      snd (processFrames noRefs
             (map (fun im => (im, settingsWith 50 ModeAuto 11)) frames12))
      <> snd (processFrames noRefs
                (map (fun im => (im, spec_clampSettings
                                       (settingsWith 50 ModeAuto 11)))
                     frames12))).
Proof.
  split; vm_compute; intro H; discriminate H.
Qed.

(** ** C7, C8: the position history *)

Section SmoothFacts.

Lemma lengthOf_app1 {A : Type} (l : list A) (a : A) :
  lengthOf (l ++ [a]) = ofZ (Z.of_nat (length l) + 1).
Proof.
  unfold lengthOf. rewrite length_app. simpl. f_equal. lia.
Qed.

(** The history kept by one call: the new position is appended, and the
    oldest one is dropped when more than [smoothing + 1] are held. *)
Lemma smoothPosition_history (history : list (num * num))
    (px py smoothing : num) :
  fst (smoothPosition history px py smoothing)
  = if (lengthOf (history ++ [(px, py)]) >? smoothing + Num 1)%num
    then tl (history ++ [(px, py)]) else history ++ [(px, py)].
Proof.
  unfold smoothPosition.
  destruct (lengthOf (history ++ [(px, py)]) >? smoothing + Num 1)%num;
    match goal with
    | |- context [(length ?l =? 0)%nat] => destruct (length l =? 0)%nat
    end; reflexivity.
Qed.

(** The position returned by one call is the mean of the history it keeps,
    unless that history is empty. *)
Lemma smoothPosition_mean (history : list (num * num))
    (px py smoothing : num) :
  fst (smoothPosition history px py smoothing) <> [] ->
  snd (smoothPosition history px py smoothing)
  = (spec_mean (map fst (fst (smoothPosition history px py smoothing))),
     spec_mean (map snd (fst (smoothPosition history px py smoothing)))).
Proof.
  unfold smoothPosition.
  set (h := if (lengthOf (history ++ [(px, py)]) >? smoothing + Num 1)%num
            then tl (history ++ [(px, py)]) else history ++ [(px, py)]).
  destruct (length h =? 0)%nat eqn:E; cbn [fst snd]; intro Hne.
  - apply Nat.eqb_eq in E. destruct h; [congruence | discriminate].
  - unfold spec_mean, spec_sum, lengthOf.
    rewrite !fold_left_map, !length_map. reflexivity.
Qed.

(** One call keeps the bound [smoothing + 1] on the length of the history. *)
Lemma smoothPosition_bound (history : list (num * num)) (px py : num) (w : Q) :
  (lengthOf history <=? Num w + Num 1)%num = true ->
  (lengthOf (fst (smoothPosition history px py (Num w))) <=? Num w + Num 1)%num
  = true.
Proof.
  intro H. rewrite smoothPosition_history.
  destruct (lengthOf (history ++ [(px, py)]) >? Num w + Num 1)%num eqn:E.
  - destruct history as [|p l]; [exact H|].
    cbn [app tl]. unfold lengthOf in *. rewrite length_app. cbn [length] in *.
    replace (length l + 1)%nat with (S (length l)) by lia. exact H.
  - unfold lengthOf, ofZ, add, lift2 in *.
    apply gtb_Num_false in E. now apply leb_Num.
Qed.

Lemma observeAll_bound (w : Q) (ps history : list (num * num)) :
  (lengthOf history <=? Num w + Num 1)%num = true ->
  (lengthOf (observeAll (Num w) history ps) <=? Num w + Num 1)%num = true.
Proof.
  revert history. induction ps as [|p ps IH]; intros history H; [exact H|].
  unfold observeAll. cbn [fold_left]. apply IH.
  now apply smoothPosition_bound.
Qed.

Lemma empty_bound (w : Q) :
  0 <= w -> (lengthOf (@nil (num * num)) <=? Num w + Num 1)%num = true.
Proof.
  intro H. unfold lengthOf, ofZ, add, lift2. apply leb_Num.
  rewrite Qred_correct. simpl inject_Z. change (inject_Z 0) with 0. lra.
Qed.

(** With capacity 1 the history kept is the new position alone. *)
Lemma smoothPosition_capacity_one (history : list (num * num))
    (px py : num) (w : Q) :
  w == 0 ->
  (lengthOf history <=? Num w + Num 1)%num = true ->
  fst (smoothPosition history px py (Num w)) = [(px, py)].
Proof.
  intros Hw H. rewrite smoothPosition_history.
  unfold lengthOf, ofZ, add, lift2 in *. apply leb_Num in H.
  rewrite Qred_correct, Hw in H.
  destruct history as [|p [|p' l]].
  - cbn [app length].
    destruct (_ >? _)%num eqn:E; [|reflexivity].
    apply gtb_Num in E. rewrite Qred_correct, Hw in E.
    change (inject_Z (Z.of_nat 1)) with 1 in E. exfalso. lra.
  - cbn [app length].
    destruct (_ >? _)%num eqn:E; [reflexivity|].
    apply gtb_Num_false in E. rewrite Qred_correct, Hw in E.
    change (inject_Z (Z.of_nat 2)) with 2 in E. exfalso. lra.
  - exfalso. cbn [length] in H. rewrite !Nat2Z.inj_succ in H.
    assert (H2 : inject_Z 2 <= inject_Z (Z.succ (Z.succ (Z.of_nat (length l))))).
    { rewrite <- Zle_Qle. lia. }
    change (inject_Z 2) with 2 in H2. lra.
Qed.

Lemma mean_singleton_same (a : num) : same (spec_mean [a]) a.
Proof.
  unfold spec_mean, spec_sum. cbn [fold_left].
  change (lengthOf [a]) with (Num 1).
  apply same_trans with (b := (Num 0 + a)%num).
  - apply div_one_same.
  - apply add_zero_same.
Qed.

Lemma mean_singleton_ofZ (z : Z) : spec_mean [ofZ z] = ofZ z.
Proof.
  unfold spec_mean, spec_sum. cbn [fold_left].
  change (lengthOf [ofZ z]) with (Num 1).
  rewrite add_zero_ofZ. apply div_one_ofZ.
Qed.

Lemma mean_singleton_NaN : spec_mean [NaN] = NaN.
Proof. reflexivity. Qed.

End SmoothFacts.

(** With a window that is not negative the history kept by a call is never
    empty. *)
Lemma smoothPosition_nonempty (history : list (num * num))
    (px py : num) (w : Q) :
  0 <= w -> fst (smoothPosition history px py (Num w)) <> [].
Proof.
  intro Hw. rewrite smoothPosition_history.
  destruct (lengthOf (history ++ [(px, py)]) >? Num w + Num 1)%num eqn:E.
  - destruct history as [|p [|p' l]]; cbn [app tl]; try discriminate.
    exfalso. unfold lengthOf, ofZ, add, lift2 in E. apply gtb_Num in E.
    rewrite Qred_correct in E.
    change (inject_Z (Z.of_nat (length ([] ++ [(px, py)])))) with 1 in E. lra.
  - destruct history; discriminate.
Qed.




(** The same through [processFrame]: four detections with smoothing 3, then
    a fifth frame with smoothing 1. *)
Example lowered_smoothing_over_frames :
  length (positionHistoryRef
            (fst (processFrames noRefs
                    (map (fun im => (im, settingsWith 50 ModeAuto 3))
                         (repeat whiteAt2 4)
                     ++ [(whiteAt0, settingsWith 50 ModeAuto 1)]))))
  = 4%nat.
Proof. vm_compute. reflexivity. Qed.

(** The position reported by [detectLaser] is an integer, or [NaN]. *)
Lemma detectLaser_position (im : ImageData) (settings : DetectorSettings) :
  (x (detectLaser im settings) = NaN
   \/ exists z, x (detectLaser im settings) = ofZ z)
  /\ (y (detectLaser im settings) = NaN
      \/ exists z, y (detectLaser im settings) = ofZ z).
Proof.
  assert (R : forall a, round a = NaN \/ exists z, round a = ofZ z).
  { intros [|p]; [now left | right; eexists; reflexivity]. }
  destruct (detectLaser_cases im settings) as [E | E].
  - rewrite E. split; right; exists 0%Z; reflexivity.
  - destruct E as [top [px [py [_ [_ [_ [_ [Hxy _]]]]]]]].
    destruct (refineSums im settings top) as [[sumX sumY] sumWeight].
    destruct (sumWeight >? Num 0)%num; injection Hxy as -> ->.
    + split; apply R.
    + split; right; eexists; reflexivity.
Qed.

Lemma mean_singleton_position (v : num) :
  v = NaN \/ (exists z, v = ofZ z) -> spec_mean [v] = v.
Proof.
  intros [-> | [z ->]]; [reflexivity | apply mean_singleton_ofZ].
Qed.

(** [processFrame] on an empty history reports the position [detectLaser]
    found, whatever the smoothing. *)
Lemma processFrame_fresh (cal : option CalibrationData) (im : ImageData)
    (settings : DetectorSettings) :
  snd (processFrame (mkRefs [] cal) im settings) = detectLaser im settings.
Proof.
  unfold processFrame. cbn [positionHistoryRef calibrationDataRef].
  destruct (found (detectLaser im settings)) eqn:Ef; cbn [andb negb];
    [|reflexivity].
  destruct (smoothing settings >? Num 0)%num eqn:Es; [|reflexivity].
  apply gtb_true_inv in Es. destruct Es as [w [z [Hw [Hz Hpos]]]].
  apply Num_inj in Hz. subst z.
  pose proof (smoothPosition_history [] (x (detectLaser im settings))
                (y (detectLaser im settings)) (smoothing settings)) as Hh.
  assert (Hkeep : (lengthOf ([] ++ [(x (detectLaser im settings),
                                     y (detectLaser im settings))])
                   >? smoothing settings + Num 1)%num = false).
  { rewrite Hw. unfold lengthOf, ofZ, add, lift2. apply gtb_Num_false.
    rewrite Qred_correct.
    change (inject_Z (Z.of_nat (length ([] ++ [(x (detectLaser im settings),
                                               y (detectLaser im settings))]))))
      with 1.
    lra. }
  rewrite Hkeep in Hh. cbn [app] in Hh.
  pose proof (smoothPosition_mean [] (x (detectLaser im settings))
                (y (detectLaser im settings)) (smoothing settings)) as Hm.
  rewrite Hh in Hm. specialize (Hm ltac:(discriminate)).
  cbn [map fst snd] in Hm.
  destruct (detectLaser_position im settings) as [Hx Hy].
  rewrite (mean_singleton_position _ Hx), (mean_singleton_position _ Hy) in Hm.
  destruct (smoothPosition [] _ _ _) as [h [sx sy]].
  cbn [snd] in Hm. injection Hm as -> ->. cbn [snd].
  rewrite <- Ef. destruct (detectLaser im settings). reflexivity.
Qed.

(** C8. A processed frame that reports [found = false] leaves the position
    history empty, and the next processed frame, when it reports
    [found = true], reports the position and the whole result of
    [detectLaser] on that frame, with nothing of earlier positions in it. *)
Theorem C8_reset_on_loss (refs : Refs) (im1 im2 : ImageData)
    (s1 s2 : DetectorSettings) :
  found (snd (processFrame refs im1 s1)) = false ->
  positionHistoryRef (fst (processFrame refs im1 s1)) = []
  /\ (found (snd (processFrame (fst (processFrame refs im1 s1)) im2 s2)) = true ->
      snd (processFrame (fst (processFrame refs im1 s1)) im2 s2)
      = detectLaser im2 s2).
Proof.
  intro Hf.
  assert (Hempty : positionHistoryRef (fst (processFrame refs im1 s1)) = []).
  { revert Hf. unfold processFrame.
    destruct (found (detectLaser im1 s1)) eqn:Ef; cbn [andb negb].
    - destruct (smoothing s1 >? Num 0)%num.
      + destruct (smoothPosition _ _ _ _) as [h [sx sy]]. cbn. congruence.
      + cbn. congruence.
    - reflexivity. }
  split; [exact Hempty|]. intros _.
  destruct (fst (processFrame refs im1 s1)) as [h cal].
  cbn [positionHistoryRef] in Hempty. subst h.
  apply processFrame_fresh.
Qed.

Lemma C8_reset_on_loss_witness :
  positionHistoryRef
    (fst (processFrame (mkRefs [(Num 7, Num 7)] None) grayFrame
                       DEFAULT_SETTINGS)) = []
  /\ snd (processFrame
            (fst (processFrame (mkRefs [(Num 7, Num 7)] None) grayFrame
                               DEFAULT_SETTINGS))
            whiteAt2 DEFAULT_SETTINGS)
     = detectLaser whiteAt2 DEFAULT_SETTINGS.
Proof.
  destruct (C8_reset_on_loss (mkRefs [(Num 7, Num 7)] None) grayFrame whiteAt2
              DEFAULT_SETTINGS DEFAULT_SETTINGS) as [H1 H2];
    [reflexivity|].
  split; [exact H1|]. apply H2. reflexivity.
Defined.

(** ** C9: calibration *)

Section CalibrationFacts.

Lemma byteAt_skip4 (r g b a : byte) (rest : list byte) (i : Z) :
  (0 <= i)%Z -> byteAt (r :: g :: b :: a :: rest) (4 + i) = byteAt rest i.
Proof.
  intro Hi. unfold byteAt.
  replace (4 + i <? 0)%Z with false by (symmetry; apply Z.ltb_ge; lia).
  replace (i <? 0)%Z with false by (symmetry; apply Z.ltb_ge; lia).
  replace (Z.to_nat (4 + i)) with (S (S (S (S (Z.to_nat i))))) by lia.
  reflexivity.
Qed.

Lemma range_0_4n (n : nat) :
  range 0 (Z.of_nat (4 * n)) 4 = map (fun k => (4 * Z.of_nat k)%Z) (seq 0 n).
Proof.
  unfold range.
  replace (Z.to_nat ((Z.of_nat (4 * n) - 0 + 4 - 1) / 4)) with n.
  - apply map_ext. intro k. lia.
  - replace (Z.of_nat (4 * n) - 0 + 4 - 1)%Z with (3 + Z.of_nat n * 4)%Z by lia.
    rewrite Z.div_add by lia. change (3 / 4)%Z with 0%Z. lia.
Qed.

(** The brightness loop adds up the pixel means of the buffer. *)
Lemma brightness_loop (n : nat) :
  forall (d : list byte) (acc : num),
    length d = (4 * n)%nat ->
    fold_left
      (fun total i =>
         (total + (byteAt d i + byteAt d (i + 1) + byteAt d (i + 2)) / Num 3)%num)
      (map (fun k => (4 * Z.of_nat k)%Z) (seq 0 n)) acc
    = fold_left add (map pixelMean (spec_pixels d)) acc.
Proof.
  induction n as [|n IH]; intros d acc Hlen.
  - destruct d; [reflexivity | discriminate].
  - destruct d as [|r [|g [|b [|a rest]]]]; try (simpl in Hlen; lia).
    assert (Hrest : length rest = (4 * n)%nat) by (simpl in Hlen; lia).
    cbn [seq map spec_pixels fold_left].
    rewrite <- seq_shift, map_map.
    rewrite <- (IH rest _ Hrest). rewrite !fold_left_map.
    apply fold_left_ext_in. intros total k _.
    replace (4 * Z.of_nat (S k))%Z with (4 + 4 * Z.of_nat k)%Z by lia.
    replace (4 + 4 * Z.of_nat k + 1)%Z with (4 + (4 * Z.of_nat k + 1))%Z by lia.
    replace (4 + 4 * Z.of_nat k + 2)%Z with (4 + (4 * Z.of_nat k + 2))%Z by lia.
    rewrite !byteAt_skip4 by lia. reflexivity.
Qed.

Lemma spec_pixels_length (n : nat) :
  forall d : list byte, length d = (4 * n)%nat -> length (spec_pixels d) = n.
Proof.
  induction n as [|n IH]; intros d Hlen.
  - destruct d; [reflexivity | discriminate].
  - destruct d as [|r [|g [|b [|a rest]]]]; try (simpl in Hlen; lia).
    cbn [spec_pixels length]. f_equal. apply IH. simpl in Hlen. lia.
Qed.

Lemma quarter_length (n : nat) :
  (ofZ (Z.of_nat (4 * n)) / Num 4)%num = ofZ (Z.of_nat n).
Proof.
  unfold div, ofZ. change (Qeq_bool 4 0) with false. cbv iota. f_equal.
  rewrite <- (Qred_inject_Z (Z.of_nat n)). apply Qred_complete.
  rewrite Nat2Z.inj_mul, inject_Z_mult. change (inject_Z (Z.of_nat 4)) with 4.
  field.
Qed.

(** On a buffer of whole pixels [collectFrame] computes the mean over the
    pixels of (R+G+B)/3. *)
Lemma frameBrightness_mean (d : list byte) :
  rgbaBuffer d -> frameBrightness d = spec_frameMean d.
Proof.
  intros [n Hlen]. unfold frameBrightness, spec_frameMean, spec_mean, spec_sum.

  unfold lengthOf. rewrite length_map, (spec_pixels_length n d Hlen).
  rewrite Hlen, range_0_4n, quarter_length.
  rewrite (brightness_loop n d (Num 0) Hlen). reflexivity.
Qed.

(** While the window is open [collectFrame] only records the frame. *)
Lemma collectFrames_open (start : Z) (sens : num) (refs : Refs) :
  forall (inputs : list (ImageData * Z)) (fs : list num),
    (forall im t, In (im, t) inputs -> (t - start < 2000)%Z) ->
    collectFrames refs (mkRun fs start sens) inputs
    = (refs,
       mkRun (fs ++ map (fun i => frameBrightness (data (fst i))) inputs)
             start sens).
Proof.
  induction inputs as [|[im t] rest IH]; intros fs Hopen.
  - cbn. rewrite app_nil_r. reflexivity.
  - cbn [collectFrames]. unfold collectFrame.
    cbn [startTime frames runSensitivity].
    assert (Ht : (t - start <? 2000)%Z = true).
    { apply Z.ltb_lt. apply (Hopen im t). now left. }
    rewrite Ht. rewrite IH.
    + cbn [map fst]. rewrite <- app_assoc. reflexivity.
    + intros im' t' Hin. apply (Hopen im' t'). now right.
Qed.

(** The first frame at or after 2000 ms completes the calibration. *)
Lemma collectFrames_expired (start : Z) (sens : num) (refs : Refs)
    (inputs : list (ImageData * Z)) (im : ImageData) (t : Z) :
  (forall im' t', In (im', t') inputs -> (t' - start < 2000)%Z) ->
  (2000 <= t - start)%Z ->
  let fs := map (fun i => frameBrightness (data (fst i)))
                (inputs ++ [(im, t)]) in
  let avg := spec_mean fs in
  fst (collectFrames refs (mkRun [] start sens) (inputs ++ [(im, t)]))
  = mkRefs (positionHistoryRef refs)
           (Some (mkCalibration avg (avg + Num 50 + (Num 100 - sens))%num)).
Proof.
  intros Hopen Hexp fs avg.
  assert (G : forall (l : list (ImageData * Z)) (acc : list num),
             (forall im' t', In (im', t') l -> (t' - start < 2000)%Z) ->
             fst (collectFrames refs (mkRun acc start sens) (l ++ [(im, t)]))
             = let fs' := acc ++ map (fun i => frameBrightness (data (fst i)))
                                     (l ++ [(im, t)]) in
               mkRefs (positionHistoryRef refs)
                 (Some (mkCalibration (spec_mean fs')
                          (spec_mean fs' + Num 50 + (Num 100 - sens))%num))).
  { induction l as [|[im' t'] rest IH]; intros acc Hl.
    - cbn [app collectFrames]. unfold collectFrame.
      cbn [startTime frames runSensitivity map fst].
      assert (Ht : (t - start <? 2000)%Z = false) by (apply Z.ltb_ge; lia).
      rewrite Ht. reflexivity.
    - cbn [app collectFrames]. unfold collectFrame.
      cbn [startTime frames runSensitivity].
      assert (Ht : (t' - start <? 2000)%Z = true).
      { apply Z.ltb_lt. apply (Hl im' t'). now left. }
      rewrite Ht. rewrite IH.
      + cbn [map fst app]. rewrite <- app_assoc. reflexivity.
      + intros a b Hin. apply (Hl a b). now right. }
  apply (G inputs [] Hopen).
Qed.

End CalibrationFacts.

(** C9. Started at time [start], the calibration completes on the first
    frame delivered 2000 ms or more after [start]: the installed state has
    [avgBrightness] equal to the arithmetic mean of the per-frame averages,
    each the mean of (R+G+B)/3 over the pixels of the frame, and
    [threshold = avgBrightness + 50 + (100 - sensitivity)]. While every
    frame so far came before that, no state is installed. *)
Theorem C9_calibration_result (refs : Refs) (settings : DetectorSettings)
    (start : Z) (earlier : list (ImageData * Z)) (im : ImageData) (t : Z) :
  (forall im' t', In (im', t') earlier -> (t' - start < 2000)%Z) ->
  (2000 <= t - start)%Z ->
  (forall im' t', In (im', t') (earlier ++ [(im, t)]) -> rgbaBuffer (data im')) ->
  let refs0 := fst (startCalibration refs settings start) in
  let run0 := snd (startCalibration refs settings start) in
  let avg :=
    spec_mean (map (fun i => spec_frameMean (data (fst i)))
                   (earlier ++ [(im, t)])) in
  calibrationDataRef (fst (collectFrames refs0 run0 earlier)) = None
  /\ calibrationDataRef
       (fst (collectFrames refs0 run0 (earlier ++ [(im, t)])))
     = Some (mkCalibration avg
               (avg + Num 50 + (Num 100 - sensitivity settings))%num).
Proof.
  intros Hopen Hexp Hwf refs0 run0 avg. subst refs0 run0.
  unfold startCalibration. cbn [fst snd]. split.
  - rewrite collectFrames_open by exact Hopen. reflexivity.
  - rewrite collectFrames_expired by assumption.
    cbn [calibrationDataRef]. subst avg.
    rewrite (map_ext_in (fun i => frameBrightness (data (fst i)))
                        (fun i => spec_frameMean (data (fst i)))).
    + reflexivity.
    + intros [im' t'] Hin. cbn [fst]. apply frameBrightness_mean.
      apply (Hwf im' t' Hin).
Qed.

Lemma C9_calibration_result_witness :
  calibrationDataRef
    (fst (collectFrames (fst (startCalibration noRefs DEFAULT_SETTINGS 0))
            (snd (startCalibration noRefs DEFAULT_SETTINGS 0))
            ([(grayFrame, 16%Z)] ++ [(whiteAt0, 2000%Z)])))
  = Some (mkCalibration
            (spec_mean (map (fun i => spec_frameMean (data (fst i)))
                            ([(grayFrame, 16%Z)] ++ [(whiteAt0, 2000%Z)])))
            (spec_mean (map (fun i => spec_frameMean (data (fst i)))
                            ([(grayFrame, 16%Z)] ++ [(whiteAt0, 2000%Z)]))
             + Num 50 + (Num 100 - sensitivity DEFAULT_SETTINGS))%num).
Proof.
  apply (C9_calibration_result noRefs DEFAULT_SETTINGS 0
           [(grayFrame, 16%Z)] whiteAt0 2000).
  - intros im' t' [H | []]. injection H as _ <-. lia.
  - lia.
  - intros im' t' [H | [H | []]]; injection H as <- _.
    + exists 4%nat. reflexivity.
    + exists 3%nat. reflexivity.
Defined.

Example calibration_run_value :
  calibrationDataRef
    (fst (collectFrames (fst (startCalibration noRefs DEFAULT_SETTINGS 0))
            (snd (startCalibration noRefs DEFAULT_SETTINGS 0))
            [(grayFrame, 16%Z); (whiteAt0, 2000%Z)]))
  = Some (mkCalibration (Num (213 # 2)) (Num (413 # 2))).
Proof. vm_compute. reflexivity. Qed.

(** ** C5: the refined position *)

Section RefineFacts.

Variable im : ImageData.
Variable settings : DetectorSettings.

(** The two refinement loops visit the square neighbourhood row by row. *)
Lemma refineSums_neighbourhood (top : Candidate) :
  refineSums im settings top
  = fold_left (refineAt im settings) (spec_neighbourhood top)
              (Num 0, Num 0, Num 0).
Proof.
  unfold refineSums, spec_neighbourhood.
  rewrite fold_left_flat_map.
  apply fold_left_ext_in. intros acc dy _.
  rewrite fold_left_map. reflexivity.
Qed.

Lemma refine_loop_sums (l : list (Z * Z)) :
  forall a b c : num,
    fold_left (refineAt im settings) l (a, b, c)
    = (fold_left add
         (map (fun p => ofZ (fst (fst p)) * snd p)%num (saturatedOf im settings l)) a,
       fold_left add
         (map (fun p => ofZ (snd (fst p)) * snd p)%num (saturatedOf im settings l)) b,
       fold_left add (map snd (saturatedOf im settings l)) c).
Proof.
  unfold saturatedOf.
  induction l as [|[nx ny] l IH]; intros a b c; [reflexivity|].
  cbn [fold_left filter map fst snd]. unfold refineAt at 2. cbn [fst snd].
  destruct (outOfBounds im nx ny); cbn [negb map filter fst snd];
    [apply IH|].
  destruct (brightnessAt im nx ny >? saturationThreshold settings)%num;
    cbn [map fold_left fst snd]; apply IH.
Qed.

Lemma outOfBounds_false (nx ny : Z) :
  (0 <= nx < width im)%Z -> (0 <= ny < height im)%Z ->
  outOfBounds im nx ny = false.
Proof.
  intros Hx Hy. unfold outOfBounds. rewrite !Z.geb_leb.
  replace (nx <? 0)%Z with false by (symmetry; apply Z.ltb_ge; lia).
  replace (width im <=? nx)%Z with false by (symmetry; apply Z.leb_gt; lia).
  replace (ny <? 0)%Z with false by (symmetry; apply Z.ltb_ge; lia).
  replace (height im <=? ny)%Z with false by (symmetry; apply Z.leb_gt; lia).
  reflexivity.
Qed.

Lemma brightnessAt_nonneg (nx ny : Z) (q : Q) :
  brightnessAt im nx ny = Num q -> 0 <= q.
Proof.
  unfold brightnessAt. set (ni := ((ny * width im + nx) * 4)%Z).
  destruct (byteAt_cases (data im) ni) as [E|[zr [Hzr Er]]];
    [rewrite E; discriminate|].
  destruct (byteAt_cases (data im) (ni + 1)) as [E|[zg [Hzg Eg]]];
    [rewrite E; destruct (byteAt (data im) ni); discriminate|].
  destruct (byteAt_cases (data im) (ni + 2)) as [E|[zb [Hzb Eb]]];
    [rewrite E, Er, Eg; discriminate|].
  rewrite Er, Eg, Eb.
  destruct (brightness_of_bytes zr zg zb) as [q' [Hq Hqv]].
  rewrite Hq. intro H. apply Num_inj in H. subst q'.
  rewrite Zle_Qle in Hzr, Hzg, Hzb. change (inject_Z 0) with 0 in *. lra.
Qed.

(** Adding non-negative numbers to a number does not decrease it, and
    increases it when one of them is positive. *)
Lemma sum_nonneg (l : list num) :
  forall a : Q,
    (forall v, In v l -> exists b, v = Num b /\ 0 <= b) ->
    exists q, fold_left add l (Num a) = Num q /\ a <= q
              /\ ((exists v b, In v l /\ v = Num b /\ 0 < b) -> a < q).
Proof.
  induction l as [|v l IH]; intros a Hall.
  - exists a. split; [reflexivity|]. split; [lra|].
    intros [v [b [[] _]]].
  - destruct (Hall v (or_introl eq_refl)) as [b [-> Hb]].
    cbn [fold_left]. unfold add at 2. unfold lift2.
    destruct (IH (Qred (a + b))) as [q [Hq [Hle Hlt]]].
    { intros v' Hin. apply Hall. now right. }
    exists q. split; [exact Hq|]. rewrite Qred_correct in Hle.
    split; [lra|].
    intros [v' [b' [[Hin | Hin] [Hv Hpos]]]].
    + rewrite <- Hin in Hv. apply Num_inj in Hv. subst b'. lra.
    + assert (Qred (a + b) < q) by (apply Hlt; exists v', b'; auto).
      rewrite Qred_correct in H. lra.
Qed.

Lemma saturatedOf_In (l : list (Z * Z)) (p : Z * Z * num) :
  In p (saturatedOf im settings l) <->
  In (fst p) l /\ outOfBounds im (fst (fst p)) (snd (fst p)) = false
  /\ snd p = brightnessAt im (fst (fst p)) (snd (fst p))
  /\ (snd p >? saturationThreshold settings)%num = true.
Proof.
  unfold saturatedOf. rewrite filter_In, in_map_iff. split.
  - intros [[c [Hc Hin]] Hsat]. apply filter_In in Hin.
    destruct Hin as [Hin Hb]. apply negb_true_iff in Hb. subst p.
    cbn [fst snd] in *. auto.
  - intros [Hin [Hb [Hbr Hsat]]]. split; [|exact Hsat].
    exists (fst p). split.
    + destruct p as [c v]. cbn [fst snd] in *. now subst v.
    + apply filter_In. split; [exact Hin|]. now apply negb_true_iff.
Qed.

(** The candidate lies at the centre of its own neighbourhood. *)
Lemma centre_in_neighbourhood (top : Candidate) :
  In (cx top, cy top) (spec_neighbourhood top).
Proof.
  unfold spec_neighbourhood. apply in_flat_map. exists 0%Z. split.
  - vm_compute. tauto.
  - apply in_map_iff. exists 0%Z. split.
    + f_equal; lia.
    + vm_compute. tauto.
Qed.

(** When some pixel of the neighbourhood exceeds the saturation threshold,
    the accumulated weight is positive. *)
Lemma saturated_weight_positive (top : Candidate) (px py : Z) :
  In px (range 0 (width im) step) ->
  In py (range 0 (height im) step) ->
  scanPixel im settings px py = Some top ->
  saturatedOf im settings (spec_neighbourhood top) <> [] ->
  (spec_sum (map snd (saturatedOf im settings (spec_neighbourhood top))) >? Num 0)%num
  = true.
Proof.
  intros Hx Hy Hp Hne.
  set (l := saturatedOf im settings (spec_neighbourhood top)) in *.
  assert (Hall : forall v, In v (map snd l) -> exists b, v = Num b /\ 0 <= b).
  { intros v Hin. apply in_map_iff in Hin. destruct Hin as [p [<- Hin]].
    apply saturatedOf_In in Hin. destruct Hin as [_ [_ [Hbr Hsat]]].
    apply gtb_true_inv in Hsat. destruct Hsat as [b [t [Hb _]]].
    exists b. split; [exact Hb|].
    apply (brightnessAt_nonneg (fst (fst p)) (snd (fst p))). congruence. }
  destruct (sum_nonneg (map snd l) 0 Hall) as [q [Hq [_ Hlt]]].
  unfold spec_sum. rewrite Hq. apply gtb_Num. apply Hlt.
  destruct l as [|p0 l0] eqn:El; [congruence|].
  assert (Hin0 : In p0 (saturatedOf im settings (spec_neighbourhood top))).
  { fold l. rewrite El. now left. }
  apply saturatedOf_In in Hin0. destruct Hin0 as [_ [_ [Hbr0 Hsat0]]].
  apply gtb_true_inv in Hsat0. destruct Hsat0 as [b0 [t [Hb0 [Ht Hbt]]]].
  destruct (Qlt_le_dec t 0) as [Hneg | Hnonneg].
  - (* negative threshold: the candidate's own pixel counts *)
    apply scanPixel_Some in Hp.
    destruct Hp as [Hcx [Hcy [_ [qc [Hqc Hqpos]]]]].
    apply range_bounds in Hx; [|unfold step; lia].
    apply range_bounds in Hy; [|unfold step; lia].
    exists (Num qc), qc. split; [|split; [reflexivity | exact Hqpos]].
    apply in_map_iff. exists ((cx top, cy top), Num qc). split; [reflexivity|].
    rewrite <- El. apply saturatedOf_In. cbn [fst snd].
    rewrite Hcx, Hcy. repeat split.
    + rewrite <- Hcx, <- Hcy. apply centre_in_neighbourhood.
    + apply outOfBounds_false; assumption.
    + symmetry. exact Hqc.
    + rewrite Ht. apply gtb_Num. lra.
  - exists (snd p0), b0. split; [now left|]. split; [exact Hb0 | lra].
Qed.

End RefineFacts.

(** A sum of numbers is a number. *)
Lemma sum_defined (l : list num) :
  (forall v, In v l -> exists b, v = Num b) ->
  forall a : Q, exists q, fold_left add l (Num a) = Num q.
Proof.
  induction l as [|v l IH]; intros Hall a.
  - exists a. reflexivity.
  - destruct (Hall v (or_introl eq_refl)) as [b ->].
    cbn [fold_left]. unfold add at 2. unfold lift2.
    apply IH. intros v' Hin. apply Hall. now right.
Qed.

(** [Math.round] yields an integer nearest to its argument. *)
Lemma round_nearest (q : Q) :
  exists z, round (Num q) = ofZ z /\ nearestInteger (Num q) z.
Proof.
  exists (Qfloor (q + (1 # 2))). split; [reflexivity|].
  exists q. split; [reflexivity|].
  pose proof (Qfloor_le (q + (1 # 2))) as Hlo.
  pose proof (Qlt_floor (q + (1 # 2))) as Hhi.
  rewrite inject_Z_plus in Hhi. change (inject_Z 1) with 1 in Hhi.
  split; lra.
Qed.

(** The weighted coordinate sums of the saturated pixels are numbers. *)
Lemma saturated_sums_defined (im : ImageData) (settings : DetectorSettings)
    (top : Candidate) (coord : Z * Z * num -> Z) :
  exists q,
    spec_sum (map (fun p => ofZ (coord p) * snd p)%num
                  (spec_saturated im settings top)) = Num q.
Proof.
  unfold spec_sum. apply sum_defined. intros v Hin.
  apply in_map_iff in Hin. destruct Hin as [p [<- Hin]].
  apply saturatedOf_In in Hin. destruct Hin as [_ [_ [_ Hsat]]].
  apply gtb_true_inv in Hsat. destruct Hsat as [b [t [Hb _]]].
  rewrite Hb. unfold ofZ, mul, lift2. eexists. reflexivity.
Qed.



(** The two white pixels of [twoWhite] are the saturated pixels around the
    top candidate at column 0; their centroid is column 1, which is what is
    reported. *)
Example twoWhite_centroid :
  detectLaser twoWhite DEFAULT_SETTINGS
  = mkResult true (Num 1) (Num 0) (Num 89) (Some Red)
  /\ spec_centroid twoWhite DEFAULT_SETTINGS
       (mkCandidate 0 0 (Num 255) (Num 255) (Num 255) (Num 355))
     = (Num 1, Num 0)
  /\ map fst (spec_saturated twoWhite DEFAULT_SETTINGS
                (mkCandidate 0 0 (Num 255) (Num 255) (Num 255) (Num 355)))
     = [(0, 0); (2, 0)]%Z.
Proof. vm_compute. repeat split. Qed.

(** * Further properties of the detector *)

(** ** The candidates and the choice of the top candidate *)

Section CandidateOrder.

Lemma range_multiple (lo hi st z : Z) :
  In z (range lo hi st) -> exists k : nat, z = (lo + st * Z.of_nat k)%Z.
Proof.
  unfold range. intro H. apply in_map_iff in H.
  destruct H as [k [<- _]]. exists k. reflexivity.
Qed.

Lemma scanPixel_fields (im : ImageData) (settings : DetectorSettings)
    (px py : Z) (c : Candidate) :
  scanPixel im settings px py = Some c ->
  pixelAt im px py = (cr c, cg c, cb c).
Proof.
  unfold scanPixel, pixelAt.
  destruct (_ <? bloomThreshold settings)%num; [discriminate|].
  destruct (classify _ _ _ _ _) as [[isC sc] col].
  destruct (isC && (sc >? Num 0)%num); [|discriminate].
  intro H. injection H as <-. reflexivity.
Qed.

Lemma sub_neg (p q : Q) : (Num p - Num q <? Num 0)%num = true <-> p < q.
Proof.
  unfold sub, lift2. rewrite ltb_Num, Qred_correct. split; intro; lra.
Qed.

Lemma sub_neg_false (p q : Q) : (Num p - Num q <? Num 0)%num = false <-> q <= p.
Proof.
  unfold sub, lift2. rewrite ltb_Num_false, Qred_correct. split; intro; lra.
Qed.

(** The first element of the sorted list is the first element of the
    original list whose score no other element exceeds. *)
Lemma sortByScore_head (l : list Candidate) :
  (forall c, In c l -> exists q, score c = Num q) ->
  forall top, hd_error (sortByScore l) = Some top ->
  exists before after,
    l = before ++ top :: after
    /\ (forall c, In c before -> (score c <? score top)%num = true)
    /\ (forall c, In c after -> (score c <=? score top)%num = true).
Proof.
  induction l as [|c l IH]; intros Hnum top Htop; [discriminate|].
  cbn [sortByScore fold_right] in Htop. fold (sortByScore l) in Htop.
  assert (Hnum' : forall c', In c' l -> exists q, score c' = Num q).
  { intros c' Hin. apply Hnum. now right. }
  destruct (Hnum c (or_introl eq_refl)) as [qc Hqc].
  destruct (sortByScore l) as [|e rest] eqn:Es.
  - apply sortByScore_nil in Es. subst l. cbn in Htop. injection Htop as <-.
    exists [], []. repeat split; intros c' [].
  - destruct (IH Hnum' e eq_refl) as [before [after [Hl [Hb Ha]]]].
    assert (Hine : In e l) by (rewrite Hl; apply in_elt).
    destruct (Hnum' e Hine) as [qe Hqe].
    cbn [insertByScore] in Htop. rewrite Hqc, Hqe in Htop.
    destruct (Num qc - Num qe <? Num 0)%num eqn:Ecmp.
    + cbn in Htop. injection Htop as <-. apply sub_neg in Ecmp.
      exists (c :: before), after. split; [rewrite Hl; reflexivity|].
      split; [|exact Ha].
      intros c' [<- | Hin]; [|now apply Hb].
      rewrite Hqc, Hqe. now apply ltb_Num.
    + cbn in Htop. injection Htop as <-. apply sub_neg_false in Ecmp.
      exists [], l. split; [reflexivity|]. split; [intros c' []|].
      intros c' Hin. destruct (Hnum' c' Hin) as [q' Hq'].
      rewrite Hq', Hqc. apply leb_Num.
      assert (Hle : q' <= qe).
      { rewrite Hl in Hin. apply in_app_or in Hin.
        destruct Hin as [Hin | [<- | Hin]].
        - specialize (Hb c' Hin). rewrite Hq', Hqe in Hb.
          apply ltb_Num in Hb. lra.
        - rewrite Hqe in Hq'. apply Num_inj in Hq'. subst q'. lra.
        - specialize (Ha c' Hin). rewrite Hq', Hqe in Ha.
          now apply leb_Num in Ha. }
      lra.
Qed.

End CandidateOrder.

(** X1. Every candidate pushed by the scan lies inside the frame on the
    grid of even columns and rows, records the channel values of its own
    pixel, and has a positive score. *)
Theorem X1_candidates_on_grid (im : ImageData) (settings : DetectorSettings)
    (c : Candidate) :
  In c (scanFrame im settings) ->
  onScanGrid im c /\ exists q, score c = Num q /\ 0 < q.
Proof.
  intro Hin. apply scanFrame_In in Hin.
  destruct Hin as [px [py [Hx [Hy Hp]]]].
  pose proof (scanPixel_fields im settings px py c Hp) as Hf.
  apply scanPixel_Some in Hp. destruct Hp as [Hcx [Hcy [Hs _]]].
  split; [|exact Hs]. unfold onScanGrid. rewrite Hcx, Hcy.
  destruct (range_multiple _ _ _ _ Hx) as [kx Hkx].
  destruct (range_multiple _ _ _ _ Hy) as [ky Hky].
  apply range_bounds in Hx; [|unfold step; lia].
  apply range_bounds in Hy; [|unfold step; lia].
  repeat split; try lia; try exact Hf.
  - rewrite Hkx. unfold step. rewrite Z.add_0_l. apply Z.even_mul.
  - rewrite Hky. unfold step. rewrite Z.add_0_l. apply Z.even_mul.
Qed.

Lemma X1_candidates_on_grid_witness :
  onScanGrid whiteAt2 (mkCandidate 2 0 (Num 255) (Num 255) (Num 255) (Num 355)).
Proof.
  apply (X1_candidates_on_grid whiteAt2 DEFAULT_SETTINGS).
  vm_compute. left. reflexivity.
Defined.

(** X2. The top candidate is the first candidate in raster order that
    attains the highest score: every candidate pushed before it scores
    strictly less and every candidate pushed after it scores at most as
    much. *)
Theorem X2_top_is_first_maximum (im : ImageData) (settings : DetectorSettings)
    (top : Candidate) :
  topCandidate im settings = Some top ->
  exists before after,
    scanFrame im settings = before ++ top :: after
    /\ (forall c, In c before -> (score c <? score top)%num = true)
    /\ (forall c, In c after -> (score c <=? score top)%num = true).
Proof.
  unfold topCandidate. apply sortByScore_head.
  intros c Hin. apply scanFrame_In in Hin.
  destruct Hin as [px [py [_ [_ Hp]]]]. apply scanPixel_Some in Hp.
  destruct Hp as [_ [_ [[q [Hq _]] _]]]. exists q. exact Hq.
Qed.

Lemma X2_top_is_first_maximum_witness :
  exists before after,
    scanFrame (frameOf 3 1 [whitePixel; blackPixel; whitePixel]) DEFAULT_SETTINGS
    = before ++ mkCandidate 0 0 (Num 255) (Num 255) (Num 255) (Num 355) :: after
    /\ (forall c, In c before ->
                  (score c <? Num 355)%num = true)
    /\ (forall c, In c after -> (score c <=? Num 355)%num = true).
Proof.
  apply (X2_top_is_first_maximum
           (frameOf 3 1 [whitePixel; blackPixel; whitePixel]) DEFAULT_SETTINGS
           (mkCandidate 0 0 (Num 255) (Num 255) (Num 255) (Num 355))).
  vm_compute. reflexivity.
Defined.

(** ** The refined position stays inside the frame *)

Section CentroidBounds.

Variable im : ImageData.
Variable settings : DetectorSettings.

Lemma floor_half (z : Z) : Qfloor (inject_Z z + (1 # 2)) = z.
Proof.
  unfold Qfloor, Qplus, inject_Z. simpl Qnum. simpl Qden.
  replace (z * 2 + 1 * 1)%Z with (1 + z * 2)%Z by lia.
  rewrite Z.div_add by lia. reflexivity.
Qed.

(** Rounding a number that lies between two integers stays between them. *)
Lemma round_between (lo hi : Z) (q : Q) :
  inject_Z lo <= q <= inject_Z hi ->
  exists z, round (Num q) = ofZ z /\ (lo <= z <= hi)%Z.
Proof.
  intros [Hlo Hhi]. exists (Qfloor (q + (1 # 2))). split; [reflexivity|].
  split.
  - rewrite <- (floor_half lo). apply Qfloor_resp_le. lra.
  - rewrite <- (floor_half hi). apply Qfloor_resp_le. lra.
Qed.

(** Weighted sums of coordinates between [lo] and [hi] with non-negative
    weights lie between [lo] and [hi] times the sum of the weights. *)
Lemma weighted_sum_bounds (coord : Z * Z * num -> Z) (lo hi : Z)
    (l : list (Z * Z * num)) :
  (forall p, In p l ->
             (lo <= coord p <= hi)%Z /\ exists b, snd p = Num b /\ 0 <= b) ->
  forall a c : Q,
    inject_Z lo * c <= a <= inject_Z hi * c ->
    exists s w,
      fold_left add (map (fun p => ofZ (coord p) * snd p)%num l) (Num a) = Num s
      /\ fold_left add (map snd l) (Num c) = Num w
      /\ inject_Z lo * w <= s <= inject_Z hi * w.
Proof.
  induction l as [|p l IH]; intros Hall a c Hac.
  - exists a, c. repeat split; try reflexivity; apply Hac.
  - destruct (Hall p (or_introl eq_refl)) as [Hc [b [Hb Hb0]]].
    cbn [map fold_left]. rewrite Hb. unfold ofZ. cbn [add mul lift2].
    apply IH.
    + intros p' Hin. apply Hall. now right.
    + rewrite !Qred_correct.
      destruct Hc as [Hc1 Hc2]. rewrite Zle_Qle in Hc1, Hc2.
      split; nra.
Qed.

Lemma saturatedOf_weights (l : list (Z * Z)) (p : Z * Z * num) :
  In p (saturatedOf im settings l) -> exists b, snd p = Num b /\ 0 <= b.
Proof.
  intro Hin. apply saturatedOf_In in Hin.
  destruct Hin as [_ [_ [Hbr Hsat]]].
  apply gtb_true_inv in Hsat. destruct Hsat as [b [t [Hb _]]].
  exists b. split; [exact Hb|].
  apply (brightnessAt_nonneg im (fst (fst p)) (snd (fst p))). congruence.
Qed.

Lemma neighbourhood_near (top : Candidate) (p : Z * Z) :
  In p (spec_neighbourhood top) ->
  (cx top - 10 <= fst p <= cx top + 10)%Z
  /\ (cy top - 10 <= snd p <= cy top + 10)%Z.
Proof.
  unfold spec_neighbourhood. intro H. apply in_flat_map in H.
  destruct H as [dy [Hdy H]]. apply in_map_iff in H.
  destruct H as [dx [<- Hdx]].
  apply range_bounds in Hdx; [|lia]. apply range_bounds in Hdy; [|lia].
  unfold refineRadius in *. cbn [fst snd]. lia.
Qed.

Lemma outOfBounds_inv (nx ny : Z) :
  outOfBounds im nx ny = false ->
  (0 <= nx < width im)%Z /\ (0 <= ny < height im)%Z.
Proof.
  unfold outOfBounds. rewrite !Z.geb_leb, !orb_false_iff.
  rewrite !Z.ltb_ge, !Z.leb_gt. lia.
Qed.

(** The division and rounding of the refinement step, between bounds. *)
Lemma centroid_between (lo hi : Z) (s w : Q) :
  0 < w -> inject_Z lo * w <= s <= inject_Z hi * w ->
  exists z, round (Num s / Num w) = ofZ z /\ (lo <= z <= hi)%Z.
Proof.
  intros Hw [H1 H2]. unfold div.
  destruct (Qeq_bool w 0) eqn:E.
  { apply Qeq_bool_eq in E. rewrite E in Hw. exfalso. lra. }
  apply round_between. rewrite Qred_correct. split.
  - apply Qle_shift_div_l; assumption.
  - apply Qle_shift_div_r; assumption.
Qed.

End CentroidBounds.

(** The position of a detection: integers inside the frame, near the top
    candidate. *)
Lemma found_position (im : ImageData) (settings : DetectorSettings) :
  found (detectLaser im settings) = true ->
  exists top zx zy,
    topCandidate im settings = Some top
    /\ x (detectLaser im settings) = ofZ zx
    /\ y (detectLaser im settings) = ofZ zy
    /\ (0 <= zx < width im)%Z /\ (0 <= zy < height im)%Z
    /\ (cx top - 10 <= zx <= cx top + 10)%Z
    /\ (cy top - 10 <= zy <= cy top + 10)%Z.
Proof.
  intro Hf. destruct (detectLaser_cases im settings) as [E | E].
  { rewrite E in Hf. discriminate. }
  destruct E as [top [px [py [Etop [_ [_ [_ [Hxy [Hx [Hy Hp]]]]]]]]]].
  exists top.
  apply scanPixel_Some in Hp. destruct Hp as [Hcx [Hcy _]].
  apply range_bounds in Hx; [|unfold step; lia].
  apply range_bounds in Hy; [|unfold step; lia].
  rewrite refineSums_neighbourhood, refine_loop_sums in Hxy.
  set (L := saturatedOf im settings (spec_neighbourhood top)) in *.
  assert (HL : forall p, In p L ->
             ((Z.max 0 (cx top - 10) <= fst (fst p)
               <= Z.min (width im - 1) (cx top + 10))%Z
              /\ exists b, snd p = Num b /\ 0 <= b)
             /\ ((Z.max 0 (cy top - 10) <= snd (fst p)
                  <= Z.min (height im - 1) (cy top + 10))%Z
                 /\ exists b, snd p = Num b /\ 0 <= b)).
  { intros p Hin. pose proof (saturatedOf_weights im settings _ p Hin) as Hw.
    apply saturatedOf_In in Hin. destruct Hin as [Hn [Hb _]].
    apply neighbourhood_near in Hn. apply outOfBounds_inv in Hb.
    split; (split; [lia | exact Hw]). }
  destruct (weighted_sum_bounds (fun p => fst (fst p))
              (Z.max 0 (cx top - 10)) (Z.min (width im - 1) (cx top + 10)) L
              (fun p Hin => proj1 (HL p Hin)) 0 0)
    as [sx [w [Hsx [Hw Hbx]]]]; [lra|].
  destruct (weighted_sum_bounds (fun p => snd (fst p))
              (Z.max 0 (cy top - 10)) (Z.min (height im - 1) (cy top + 10)) L
              (fun p Hin => proj2 (HL p Hin)) 0 0)
    as [sy [w' [Hsy [Hw' Hby]]]]; [lra|].
  rewrite Hw in Hw'. apply Num_inj in Hw'. subst w'.
  rewrite Hsx, Hsy, Hw in Hxy.
  destruct (Num w >? Num 0)%num eqn:Epos.
  - apply gtb_Num in Epos.
    destruct (centroid_between _ _ sx w Epos Hbx) as [zx [Hzx Hbzx]].
    destruct (centroid_between _ _ sy w Epos Hby) as [zy [Hzy Hbzy]].
    exists zx, zy. pose proof (f_equal fst Hxy) as Hx'. pose proof (f_equal snd Hxy) as Hy'.
    cbn [fst snd] in Hx', Hy'.
    rewrite Hx', Hy', Hzx, Hzy.
    repeat split; try reflexivity; try exact Etop; lia.
  - exists (cx top), (cy top). pose proof (f_equal fst Hxy) as Hx'. pose proof (f_equal snd Hxy) as Hy'.
    cbn [fst snd] in Hx', Hy'.
    rewrite Hx', Hy'.
    repeat split; try reflexivity; try exact Etop; lia.
Qed.

(** X3. When [detectLaser] reports [found = true], the reported x and y are
    integers inside the frame (0 <= x < width, 0 <= y < height) and at most
    10 pixels away from the top candidate in each axis. *)
Theorem X3_position_inside_frame (im : ImageData)
    (settings : DetectorSettings) :
  found (detectLaser im settings) = true ->
  exists top zx zy,
    topCandidate im settings = Some top
    /\ x (detectLaser im settings) = ofZ zx
    /\ y (detectLaser im settings) = ofZ zy
    /\ (0 <= zx < width im)%Z /\ (0 <= zy < height im)%Z
    /\ (cx top - 10 <= zx <= cx top + 10)%Z
    /\ (cy top - 10 <= zy <= cy top + 10)%Z.
Proof.
  intro Hf. destruct (found_position im settings Hf) as [top [zx [zy H]]].
  exists top, zx, zy. exact H.
Qed.

Lemma X3_position_inside_frame_witness :
  exists top zx zy,
    topCandidate whiteAt2 DEFAULT_SETTINGS = Some top
    /\ x (detectLaser whiteAt2 DEFAULT_SETTINGS) = ofZ zx
    /\ y (detectLaser whiteAt2 DEFAULT_SETTINGS) = ofZ zy
    /\ (0 <= zx < width whiteAt2)%Z /\ (0 <= zy < height whiteAt2)%Z
    /\ (cx top - 10 <= zx <= cx top + 10)%Z
    /\ (cy top - 10 <= zy <= cy top + 10)%Z.
Proof.
  apply (X3_position_inside_frame whiteAt2 DEFAULT_SETTINGS). reflexivity.
Defined.

(** ** Frames in which nothing is detected *)

Section NoCandidate.

Variable im : ImageData.
Variable settings : DetectorSettings.

(** When the loop body pushes nothing for any pixel of the scan grid,
    nothing is found. *)
Lemma no_candidate_not_found :
  (forall px py : Z,
      (0 <= px < width im)%Z -> (0 <= py < height im)%Z ->
      Z.even px = true -> Z.even py = true ->
      scanPixel im settings px py = None) ->
  detectLaser im settings = notFound.
Proof.
  intro Hnone. unfold detectLaser.
  assert (E : topCandidate im settings = None).
  { apply topCandidate_None.
    destruct (scanFrame im settings) as [|c l] eqn:Es; [reflexivity|].
    assert (Hin : In c (scanFrame im settings)) by (rewrite Es; now left).
    apply scanFrame_In in Hin. destruct Hin as [px [py [Hx [Hy Hp]]]].
    destruct (range_multiple _ _ _ _ Hx) as [kx Hkx].
    destruct (range_multiple _ _ _ _ Hy) as [ky Hky].
    apply range_bounds in Hx; [|unfold step; lia].
    apply range_bounds in Hy; [|unfold step; lia].
    rewrite Hnone in Hp; try assumption; try discriminate.
    - rewrite Hkx. unfold step. rewrite Z.add_0_l. apply Z.even_mul.
    - rewrite Hky. unfold step. rewrite Z.add_0_l. apply Z.even_mul. }
  rewrite E. reflexivity.
Qed.

Lemma pixelIs_nonneg (px py r g b : Z) :
  pixelIs im px py r g b -> (0 <= r)%Z /\ (0 <= g)%Z /\ (0 <= b)%Z.
Proof.
  unfold pixelIs, pixelAt. set (i := ((py * width im + px) * 4)%Z).
  intro H.
  assert (G : forall j z, byteAt (data im) j = ofZ z -> (0 <= z)%Z).
  { intros j z Hj. destruct (byteAt_cases (data im) j) as [E | [z' [Hz' E]]].
    - rewrite E in Hj. discriminate.
    - rewrite E in Hj. unfold ofZ in Hj. apply Num_inj in Hj.
      assert (z' = z) by (apply inject_Z_injective; rewrite Hj; reflexivity).
      lia. }
  pose proof (f_equal (fun t => fst (fst t)) H) as Hr.
  pose proof (f_equal (fun t => snd (fst t)) H) as Hg.
  pose proof (f_equal snd H) as Hb. cbn [fst snd] in Hr, Hg, Hb.
  repeat split; eapply G; eassumption.
Qed.

Lemma scanPixel_of (px py r g b : Z) :
  pixelIs im px py r g b ->
  scanPixel im settings px py
  = let brightness := ((ofZ r + ofZ g + ofZ b) / Num 3)%num in
    if (brightness <? bloomThreshold settings)%num then None
    else
      let '(isLaserCandidate, sc, _) :=
        classify settings (ofZ r) (ofZ g) (ofZ b) brightness in
      if isLaserCandidate && (sc >? Num 0)%num
      then Some (mkCandidate px py (ofZ r) (ofZ g) (ofZ b) sc)
      else None.
Proof.
  unfold pixelIs, pixelAt, scanPixel. intro H.
  pose proof (f_equal (fun t => fst (fst t)) H) as Hr.
  pose proof (f_equal (fun t => snd (fst t)) H) as Hg.
  pose proof (f_equal snd H) as Hb. cbn [fst snd] in Hr, Hg, Hb.
  rewrite Hr, Hg, Hb. reflexivity.
Qed.

(** The dominance of a channel does not exceed [k] when the channel exceeds
    one of the two others by at most [k]. *)
Lemma dominance_small (lead o1 o2 k : Q) :
  lead - o1 <= k ->
  (Num lead - max (Num o1) (Num o2) >? Num k)%num = false.
Proof.
  intro H. unfold max. destruct (Qle_bool o1 o2) eqn:E.
  - apply Qle_bool_iff in E. unfold sub, lift2. apply gtb_Num_false.
    rewrite Qred_correct. lra.
  - unfold sub, lift2. apply gtb_Num_false. rewrite Qred_correct. lra.
Qed.

Lemma greenWeak_no_hit (r g b : Z) :
  (0 <= r)%Z -> greenWeak r g b ->
  isSaturatedGreen settings (ofZ r) (ofZ g) (ofZ b)
  || isGreenBloom settings (ofZ r) (ofZ g) (ofZ b) = false.
Proof.
  intros Hr [H1 H2]. apply orb_false_iff.
  rewrite Zle_Qle in Hr, H1, H2.
  rewrite !inject_Z_mult in H1. change (inject_Z 10) with 10 in H1.
  change (inject_Z 9) with 9 in H1. change (inject_Z 0) with 0 in Hr.
  change (inject_Z 250) with 250 in H2.
  unfold isSaturatedGreen, isGreenBloom, greenDominance, ofZ. split.
  - apply andb_false_intro2. apply orb_false_iff. split.
    + apply dominance_small. lra.
    + apply andb_false_intro1. apply andb_false_intro1.
      apply gtb_Num_false. exact H2.
  - apply andb_false_intro1. apply andb_false_intro2.
    unfold mul, lift2. apply gtb_Num_false. rewrite Qred_correct.
    change 0.9 with (9 # 10). lra.
Qed.

Lemma redWeak_no_hit (r g b : Z) :
  (0 <= g)%Z -> redWeak r g b ->
  isSaturatedRed settings (ofZ r) (ofZ g) (ofZ b)
  || isRedBloom settings (ofZ r) (ofZ g) (ofZ b) = false.
Proof.
  intros Hg [H1 H2]. apply orb_false_iff.
  rewrite Zle_Qle in Hg, H1, H2.
  change (inject_Z 0) with 0 in Hg. change (inject_Z 250) with 250 in H2.
  unfold isSaturatedRed, isRedBloom, redDominance, ofZ. split.
  - apply andb_false_intro2. apply orb_false_iff. split.
    + apply dominance_small. lra.
    + apply andb_false_intro1. apply andb_false_intro1.
      apply gtb_Num_false. exact H2.
  - apply andb_false_intro1. apply andb_false_intro2.
    unfold mul, lift2. apply gtb_Num_false. rewrite Qred_correct.
    change 1.2 with (12 # 10). lra.
Qed.

(** The score threshold and the bloom threshold as numbers. *)
Lemma minScore_value (q : Q) :
  sensitivity settings = Num q ->
  exists m, minScore settings = Num m /\ m == 200 - q.
Proof.
  intro Hs. unfold minScore, sensitivityFactor. rewrite Hs.
  unfold div. change (Qeq_bool 100 0) with false. cbv iota.
  unfold mul, sub, lift2. eexists. split; [reflexivity|].
  rewrite !Qred_correct. field.
Qed.

Lemma bloomThreshold_value (q : Q) :
  sensitivity settings = Num q ->
  exists m, bloomThreshold settings = Num m /\ m == 200 - q * (4 # 5).
Proof.
  intro Hs. unfold bloomThreshold, sensitivityFactor. rewrite Hs.
  unfold div. change (Qeq_bool 100 0) with false. cbv iota.
  unfold mul, sub, lift2. eexists. split; [reflexivity|].
  rewrite !Qred_correct. field.
Qed.

End NoCandidate.

(** X4. Only pixels at an even column and an even row are scanned. With a
    sensitivity of at most 100, a frame whose pixels on that grid all have
    a mean brightness below 120 (R + G + B < 360) yields the no-detection
    result, whatever the other pixels are: a pixel with one saturated
    channel and two zero channels is among the skipped ones. *)
Theorem X4_dark_frame_not_found (im : ImageData) (settings : DetectorSettings)
    (q : Q) :
  sensitivity settings = Num q -> q <= 100 ->
  everyGridPixel im dark ->
  detectLaser im settings = notFound.
Proof.
  intros Hs Hq Hdark. apply no_candidate_not_found. intros px py Hx Hy Hex Hey.
  destruct (Hdark px py Hx Hy Hex Hey) as [r [g [b [Hp Hsum]]]].
  rewrite (scanPixel_of im settings px py r g b Hp). cbv zeta.
  destruct (brightness_of_bytes r g b) as [br [Hbr Hv]]. rewrite Hbr.
  destruct (bloomThreshold_value settings q Hs) as [m [Hm Hmv]]. rewrite Hm.
  assert (E : (Num br <? Num m)%num = true).
  { apply ltb_Num. unfold dark in Hsum.
    assert (H : inject_Z (r + g + b) <= inject_Z 359)
      by (rewrite <- Zle_Qle; lia).
    rewrite !inject_Z_plus in H. change (inject_Z 359) with 359 in H.
    rewrite Hmv. lra. }
  rewrite E. reflexivity.
Qed.

Lemma greenPixel_dark : everyGridPixel (frameOf 1 1 [(0, 255, 0)%N]) dark.
Proof.
  intros px py Hx Hy _ _. simpl in Hx, Hy.
  assert (px = 0%Z) by lia. assert (py = 0%Z) by lia. subst.
  exists 0%Z, 255%Z, 0%Z. split; [reflexivity | unfold dark; lia].
Qed.

Lemma X4_dark_frame_not_found_witness :
  detectLaser (frameOf 1 1 [(0, 255, 0)%N]) (settingsWith 100 ModeAuto 3)
  = notFound.
Proof.
  apply (X4_dark_frame_not_found _ (settingsWith 100 ModeAuto 3) 100).
  - reflexivity.
  - apply Qle_refl.
  - exact greenPixel_dark.
Defined.

(** X5. The colour mode filters. In green mode a frame whose scanned pixels
    all have G <= 0.9 R and G <= 250 yields the no-detection result, and in
    red mode so does a frame whose scanned pixels all have R <= G and
    R <= 250, whatever the sensitivity. *)
Theorem X5_color_mode_filters (im : ImageData) (settings : DetectorSettings) :
  (colorMode settings = ModeGreen /\ everyGridPixel im greenWeak)
  \/ (colorMode settings = ModeRed /\ everyGridPixel im redWeak) ->
  detectLaser im settings = notFound.
Proof.
  intro H. apply no_candidate_not_found. intros px py Hx Hy Hex Hey.
  destruct H as [[Hmode Hall] | [Hmode Hall]];
    destruct (Hall px py Hx Hy Hex Hey) as [r [g [b [Hp Hweak]]]];
    rewrite (scanPixel_of im settings px py r g b Hp); cbv zeta;
    destruct (_ <? bloomThreshold settings)%num; try reflexivity;
    destruct (pixelIs_nonneg im px py r g b Hp) as [Hr [Hg Hb]];
    unfold classify; rewrite Hmode; cbn [greenEnabled redEnabled].
  - rewrite (greenWeak_no_hit settings r g b Hr Hweak). reflexivity.
  - rewrite (redWeak_no_hit settings r g b Hg Hweak). reflexivity.
Qed.

Lemma redPatch_greenWeak :
  everyGridPixel (frameOf 1 1 [(255, 100, 100)%N]) greenWeak.
Proof.
  intros px py Hx Hy _ _. simpl in Hx, Hy.
  assert (px = 0%Z) by lia. assert (py = 0%Z) by lia. subst.
  exists 255%Z, 100%Z, 100%Z. split; [reflexivity | unfold greenWeak; lia].
Qed.

Lemma X5_color_mode_filters_witness :
  detectLaser (frameOf 1 1 [(255, 100, 100)%N]) (settingsWith 100 ModeGreen 3)
  = notFound.
Proof.
  apply (X5_color_mode_filters _ (settingsWith 100 ModeGreen 3)).
  left. split; [reflexivity | exact redPatch_greenWeak].
Defined.

(** The same red pixel is found in red mode. *)
Example red_pixel_in_red_mode :
  detectLaser (frameOf 1 1 [(255, 100, 100)%N]) (settingsWith 100 ModeRed 3)
  = mkResult true (Num 0) (Num 0) (Num 100) (Some Red).
Proof. vm_compute. reflexivity. Qed.

(** ** Intensity and colour of a detection *)

(** X6. With a sensitivity of at most 100, a detection has an intensity
    between 25 and 100: the score of the top candidate exceeds
    [200 - sensitivity], which is at least 100. *)
Theorem X6_found_intensity_at_least_25 (im : ImageData)
    (settings : DetectorSettings) (q : Q) :
  sensitivity settings = Num q -> q <= 100 ->
  found (detectLaser im settings) = true ->
  exists z : Z,
    intensity (detectLaser im settings) = ofZ z /\ (25 <= z <= 100)%Z.
Proof.
  intros Hs Hq Hf. destruct (detectLaser_cases im settings) as [E | E].
  { rewrite E in Hf. discriminate. }
  destruct E as [top [px [py [_ [Hcheck [_ [Hi _]]]]]]].
  apply andb_true_iff in Hcheck. destruct Hcheck as [Hscore _].
  destruct (minScore_value settings q Hs) as [m [Hm Hmv]].
  rewrite Hm in Hscore. apply gtb_true_inv in Hscore.
  destruct Hscore as [sc [m' [Hsc [Hm' Hlt]]]].
  apply Num_inj in Hm'. subst m'. rewrite Hmv in Hlt.
  rewrite Hi, Hsc. unfold div. change (Qeq_bool 4 0) with false. cbv iota.
  destruct (round_between 25 (Qfloor (Qred (sc / 4)) + 1) (Qred (sc / 4)))
    as [z [Hz Hzb]].
  { split.
    - rewrite Qred_correct. change (inject_Z 25) with 25.
      apply Qle_shift_div_l; lra.
    - apply Qlt_le_weak. apply Qlt_floor. }
  rewrite Hz.
  destruct (min_100_range z) as [z' [Hz' Hb']]; [lia|].
  exists z'. split; [exact Hz'|].
  unfold min, ofZ in Hz'.
  destruct (Qle_bool 100 (inject_Z z)); apply Num_inj in Hz'.
  - assert (z' = 100%Z) by (apply inject_Z_injective; rewrite <- Hz'; reflexivity).
    lia.
  - assert (z' = z) by (apply inject_Z_injective; rewrite <- Hz'; reflexivity).
    lia.
Qed.

Lemma X6_found_intensity_at_least_25_witness :
  exists z : Z,
    intensity (detectLaser whiteAt2 DEFAULT_SETTINGS) = ofZ z
    /\ (25 <= z <= 100)%Z.
Proof.
  apply (X6_found_intensity_at_least_25 whiteAt2 DEFAULT_SETTINGS 50).
  - reflexivity.
  - intro H. discriminate H.
  - reflexivity.
Defined.

(** ** What detection does not read *)

Section AlphaIgnored.

Variables d d' : list byte.
Variables w h : Z.
Variable settings : DetectorSettings.
Hypothesis Hsame : sameColours d d'.

Let im := mkImage d w h.
Let im' := mkImage d' w h.

Lemma colour_bytes_same (k : Z) :
  byteAt d (k * 4) = byteAt d' (k * 4)
  /\ byteAt d (k * 4 + 1) = byteAt d' (k * 4 + 1)
  /\ byteAt d (k * 4 + 2) = byteAt d' (k * 4 + 2).
Proof.
  repeat split; apply Hsame.
  - rewrite Z.mod_mul by lia. lia.
  - rewrite Z.add_comm, Z.mod_add by lia. change (1 mod 4)%Z with 1%Z. lia.
  - rewrite Z.add_comm, Z.mod_add by lia. change (2 mod 4)%Z with 2%Z. lia.
Qed.

Lemma brightnessAt_same (nx ny : Z) :
  brightnessAt im nx ny = brightnessAt im' nx ny.
Proof.
  unfold brightnessAt. cbn [data width im im'].
  destruct (colour_bytes_same (ny * w + nx)) as [-> [-> ->]]. reflexivity.
Qed.

Lemma scanPixel_same (px py : Z) :
  scanPixel im settings px py = scanPixel im' settings px py.
Proof.
  unfold scanPixel. cbn [data width im im'].
  destruct (colour_bytes_same (py * w + px)) as [-> [-> ->]]. reflexivity.
Qed.

Lemma scanFrame_same : scanFrame im settings = scanFrame im' settings.
Proof.
  unfold scanFrame. cbn [height im im'].
  apply fold_left_ext_in. intros acc py _.
  unfold scanRow. cbn [width im im'].
  apply fold_left_ext_in. intros acc' px _.
  rewrite scanPixel_same. reflexivity.
Qed.

Lemma bloomCount_same (top : Candidate) :
  bloomCount im settings top = bloomCount im' settings top.
Proof.
  unfold bloomCount. apply fold_left_ext_in. intros acc dy _.
  apply fold_left_ext_in. intros acc' dx _.
  unfold bloomSample. rewrite brightnessAt_same. reflexivity.
Qed.

Lemma refineSums_same (top : Candidate) :
  refineSums im settings top = refineSums im' settings top.
Proof.
  unfold refineSums. apply fold_left_ext_in. intros acc dy _.
  apply fold_left_ext_in. intros acc' dx _.
  unfold refineSample. rewrite brightnessAt_same. reflexivity.
Qed.

Lemma detectLaser_same : detectLaser im settings = detectLaser im' settings.
Proof.
  unfold detectLaser, topCandidate, hasBloom.
  rewrite scanFrame_same.
  destruct (hd_error (sortByScore (scanFrame im' settings))) as [top|];
    [|reflexivity].
  rewrite bloomCount_same, refineSums_same. reflexivity.
Qed.

End AlphaIgnored.

(** X7. Detection never reads the alpha channel: two frames of one size
    whose buffers agree on every byte that is not an alpha byte give the
    same result. *)
Theorem X7_alpha_ignored (im im' : ImageData) (settings : DetectorSettings) :
  width im = width im' -> height im = height im' ->
  sameColours (data im) (data im') ->
  detectLaser im settings = detectLaser im' settings.
Proof.
  destruct im as [d w h], im' as [d' w' h']. cbn [width height data].
  intros <- <- Hsame. now apply detectLaser_same.
Qed.

Lemma transparent_same :
  sameColours (data (frameOf 1 1 [whitePixel])) ["255"; "255"; "255"; "000"]%byte.
Proof.
  intros i Hi. unfold byteAt.
  destruct (i <? 0)%Z eqn:Eneg; [reflexivity|]. apply Z.ltb_ge in Eneg.
  assert (Hc : (i = 0 \/ i = 1 \/ i = 2 \/ i = 3 \/ 4 <= i)%Z) by lia.
  destruct Hc as [-> | [-> | [-> | [-> | Hbig]]]]; try reflexivity.
  - exfalso. apply Hi. reflexivity.
  - replace (Z.to_nat i) with (4 + (Z.to_nat i - 4))%nat by lia. reflexivity.
Qed.

Lemma X7_alpha_ignored_witness :
  detectLaser (frameOf 1 1 [whitePixel]) DEFAULT_SETTINGS
  = detectLaser (mkImage ["255"; "255"; "255"; "000"]%byte 1 1) DEFAULT_SETTINGS.
Proof.
  apply (X7_alpha_ignored (frameOf 1 1 [whitePixel])
           (mkImage ["255"; "255"; "255"; "000"]%byte 1 1) DEFAULT_SETTINGS).
  - reflexivity.
  - reflexivity.
  - exact transparent_same.
Defined.

(** X8. The settings [flickerFilter] and [rotation] are never used when a
    frame is processed: settings that differ in these two only give the
    same result and the same history. *)
Theorem X8_unused_settings (refs : Refs) (im : ImageData)
    (s s' : DetectorSettings) :
  sensitivity s = sensitivity s' -> colorMode s = colorMode s' ->
  smoothing s = smoothing s' -> mirror s = mirror s' ->
  processFrame refs im s = processFrame refs im s'.
Proof.
  intros Hsens Hmode Hsm _. unfold processFrame.
  rewrite (detectLaser_settings im s s' Hsens Hmode), Hsm. reflexivity.
Qed.

Lemma X8_unused_settings_witness :
  processFrame noRefs whiteAt2 DEFAULT_SETTINGS
  = processFrame noRefs whiteAt2
      (mkSettings (Num 50) ModeAuto (Num 3) false false (Num 90)).
Proof.
  apply (X8_unused_settings noRefs whiteAt2 DEFAULT_SETTINGS
           (mkSettings (Num 50) ModeAuto (Num 3) false false (Num 90)));
    reflexivity.
Defined.

(** ** The smoothing window *)

Section WindowFacts.

Lemma lastn_short {A : Type} (n : nat) (l : list A) :
  (length l <= n)%nat -> lastn n l = l.
Proof.
  intro H. unfold lastn. replace (length l - n)%nat with 0%nat by lia.
  reflexivity.
Qed.

Lemma lastn_cons {A : Type} (n : nat) (a : A) (l : list A) :
  (n <= length l)%nat -> lastn n (a :: l) = lastn n l.
Proof.
  intro H. unfold lastn. cbn [length].
  replace (S (length l) - n)%nat with (S (length l - n)) by lia.
  reflexivity.
Qed.

Lemma lastn_app_exact {A : Type} (l l' : list A) :
  lastn (length l') (l ++ l') = l'.
Proof.
  unfold lastn. rewrite length_app.
  replace (length l + length l' - length l')%nat with (length l + 0)%nat by lia.
  rewrite skipn_app, Nat.add_0_r, skipn_all, Nat.sub_diag. reflexivity.
Qed.

(** The test of [smoothPosition] for a whole-number window. *)
Lemma window_exceeded {A : Type} (k : nat) (l : list A) :
  (lengthOf l >? ofZ (Z.of_nat k) + Num 1)%num = true
  <-> (k + 1 < length l)%nat.
Proof.
  unfold lengthOf, ofZ, add, lift2. rewrite gtb_Num, Qred_correct.
  change 1 with (inject_Z 1). rewrite <- inject_Z_plus, <- Zlt_Qlt. lia.
Qed.

Lemma window_kept {A : Type} (k : nat) (l : list A) :
  (lengthOf l >? ofZ (Z.of_nat k) + Num 1)%num = false
  <-> (length l <= k + 1)%nat.
Proof.
  unfold lengthOf, ofZ, add, lift2. rewrite gtb_Num_false, Qred_correct.
  change 1 with (inject_Z 1). rewrite <- inject_Z_plus, <- Zle_Qle. lia.
Qed.

(** One call on a history within the window keeps the last [k + 1]
    positions. *)
Lemma smoothPosition_lastn (k : nat) (history : list (num * num))
    (px py : num) :
  (length history <= k + 1)%nat ->
  fst (smoothPosition history px py (ofZ (Z.of_nat k)))
  = lastn (k + 1) (history ++ [(px, py)]).
Proof.
  intro Hlen. rewrite smoothPosition_history.
  destruct (lengthOf (history ++ [(px, py)]) >? ofZ (Z.of_nat k) + Num 1)%num
    eqn:E.
  - apply window_exceeded in E. rewrite length_app in E. cbn [length] in E.
    destruct history as [|a t]; [cbn in E; lia|].
    cbn [app tl]. rewrite lastn_cons.
    + symmetry. apply lastn_short. rewrite length_app. cbn [length] in *. lia.
    + rewrite length_app. cbn [length] in *. lia.
  - apply window_kept in E. symmetry. now apply lastn_short.
Qed.

Lemma lastn_length {A : Type} (n : nat) (l : list A) :
  (length (lastn n l) <= n)%nat.
Proof.
  unfold lastn. rewrite length_skipn. lia.
Qed.

Lemma lastn_lastn_app {A : Type} (n : nat) (l l' : list A) :
  lastn n (lastn n l ++ l') = lastn n (l ++ l').
Proof.
  unfold lastn. rewrite !length_app, length_skipn.
  destruct (Nat.le_gt_cases (length l) n) as [Hle | Hgt].
  - replace (length l - n)%nat with 0%nat by lia. cbn [skipn].
    rewrite Nat.sub_0_r. reflexivity.
  - replace (length l - (length l - n) + length l' - n)%nat
      with (length l')%nat by lia.
    replace (length l + length l' - n)%nat
      with (length l - n + length l')%nat by lia.
    rewrite !skipn_app, length_skipn.
    replace (length l' - (length l - (length l - n)))%nat
      with (length l' - n)%nat by lia.
    replace (length l - n + length l' - length l)%nat
      with (length l' - n)%nat by lia.
    rewrite skipn_skipn.
    replace (length l' + (length l - n))%nat
      with (length l - n + length l')%nat by lia.
    reflexivity.
Qed.

Lemma observeAll_lastn (k : nat) (ps history : list (num * num)) :
  (length history <= k + 1)%nat ->
  observeAll (ofZ (Z.of_nat k)) history ps = lastn (k + 1) (history ++ ps).
Proof.
  revert history. induction ps as [|[px py] ps IH]; intros history Hlen.
  - cbn. rewrite app_nil_r. symmetry. now apply lastn_short.
  - unfold observeAll. cbn [fold_left fst snd].
    fold (observeAll (ofZ (Z.of_nat k))
            (fst (smoothPosition history px py (ofZ (Z.of_nat k)))) ps).
    rewrite smoothPosition_lastn by exact Hlen.
    rewrite IH by apply lastn_length.
    rewrite lastn_lastn_app, <- app_assoc. reflexivity.
Qed.

(** Bounds of a sum and of a mean. *)
Lemma sum_bounds (lo hi : Q) (l : list num) :
  (forall v, In v l -> exists q, v = Num q /\ lo <= q <= hi) ->
  forall a : Q,
    exists s, fold_left add l (Num a) = Num s
              /\ a + lo * inject_Z (Z.of_nat (length l)) <= s
                 <= a + hi * inject_Z (Z.of_nat (length l)).
Proof.
  induction l as [|v l IH]; intros Hall a.
  - exists a. split; [reflexivity|]. cbn [length Z.of_nat].
    change (inject_Z 0) with 0. lra.
  - destruct (Hall v (or_introl eq_refl)) as [q [-> Hq]].
    cbn [fold_left]. unfold add at 2. unfold lift2.
    destruct (IH (fun v' Hin => Hall v' (or_intror Hin)) (Qred (a + q)))
      as [s [Hs Hb]].
    exists s. split; [exact Hs|]. rewrite Qred_correct in Hb.
    cbn [length]. rewrite Nat2Z.inj_succ. unfold Z.succ.
    rewrite inject_Z_plus. change (inject_Z 1) with 1. lra.
Qed.

Lemma mean_bounds (lo hi : Q) (l : list num) :
  l <> [] ->
  (forall v, In v l -> exists q, v = Num q /\ lo <= q <= hi) ->
  exists m, spec_mean l = Num m /\ lo <= m <= hi.
Proof.
  intros Hne Hall. unfold spec_mean, spec_sum.
  destruct (sum_bounds lo hi l Hall 0) as [s [Hs Hb]]. rewrite Hs.
  unfold lengthOf, ofZ, div.
  set (n := inject_Z (Z.of_nat (length l))) in *.
  assert (Hn : 0 < n).
  { unfold n. change 0 with (inject_Z 0). rewrite <- Zlt_Qlt.
    destruct l; [congruence | cbn [length]; lia]. }
  destruct (Qeq_bool n 0) eqn:E.
  { apply Qeq_bool_eq in E. rewrite E in Hn. exfalso. lra. }
  eexists. split; [reflexivity|]. rewrite Qred_correct. split.
  - apply Qle_shift_div_l; [exact Hn | lra].
  - apply Qle_shift_div_r; [exact Hn | lra].
Qed.

(** The mean of [n] copies of a number is that number. *)
Lemma sum_repeat (q : Q) (n : nat) :
  forall a : Q,
    exists s, fold_left add (repeat (Num q) n) (Num a) = Num s
              /\ s == a + inject_Z (Z.of_nat n) * q.
Proof.
  induction n as [|n IH]; intro a.
  - exists a. split; [reflexivity|]. cbn [Z.of_nat].
    change (inject_Z 0) with 0. ring.
  - cbn [repeat fold_left]. unfold add at 2. unfold lift2.
    destruct (IH (Qred (a + q))) as [s [Hs Hv]].
    exists s. split; [exact Hs|]. rewrite Hv, Qred_correct.
    rewrite Nat2Z.inj_succ. unfold Z.succ.
    rewrite inject_Z_plus. change (inject_Z 1) with 1. ring.
Qed.

Lemma sum_repeat_NaN (n : nat) (a : num) :
  fold_left add (repeat NaN (S n)) a = NaN.
Proof.
  cbn [repeat fold_left].
  replace (a + NaN)%num with NaN by (destruct a; reflexivity).
  induction n as [|n IH]; [reflexivity | exact IH].
Qed.

Lemma mean_repeat (v : num) (n : nat) :
  same (spec_mean (repeat v (S n))) v.
Proof.
  unfold spec_mean, spec_sum. destruct v as [|q].
  - rewrite sum_repeat_NaN. exact I.
  - destruct (sum_repeat q (S n) 0) as [s [Hs Hv]]. rewrite Hs.
    unfold lengthOf, ofZ, div. rewrite repeat_length.
    set (m := inject_Z (Z.of_nat (S n))) in *.
    assert (Hm : 0 < m).
    { unfold m. change 0 with (inject_Z 0). rewrite <- Zlt_Qlt. lia. }
    destruct (Qeq_bool m 0) eqn:E.
    { apply Qeq_bool_eq in E. rewrite E in Hm. exfalso. lra. }
    unfold same. rewrite Qred_correct, Hv. field. lra.
Qed.

End WindowFacts.

(** X9. With a whole-number window k, the history after any sequence of
    calls of [smoothPosition] from the empty history consists of exactly
    the last k + 1 positions passed in, in order. *)
Theorem X9_history_is_last_positions (k : nat) (ps : list (num * num)) :
  observeAll (ofZ (Z.of_nat k)) [] ps = lastn (k + 1) ps.
Proof.
  rewrite observeAll_lastn by (cbn [length]; lia). reflexivity.
Qed.

(** X10. Convergence: when one position is passed in k + 1 consecutive
    calls with window k, starting from any history of at most k + 1
    positions, the call of the last one returns that position and the
    history then consists of k + 1 copies of it. *)
Theorem X10_smoothing_converges (k : nat) (history : list (num * num))
    (px py : num) :
  (length history <= k + 1)%nat ->
  let w := ofZ (Z.of_nat k) in
  let result := smoothPosition (observeAll w history (repeat (px, py) k))
                               px py w in
  fst result = repeat (px, py) (k + 1)
  /\ same (fst (snd result)) px /\ same (snd (snd result)) py.
Proof.
  intros Hlen w result.
  assert (Hh : fst result = repeat (px, py) (k + 1)).
  { unfold result, w. rewrite smoothPosition_lastn.
    - rewrite observeAll_lastn by exact Hlen.
      rewrite lastn_lastn_app, <- app_assoc.
      replace (repeat (px, py) k ++ [(px, py)]) with (repeat (px, py) (k + 1))
        by (rewrite repeat_app; reflexivity).
      rewrite <- (repeat_length (px, py) (k + 1)) at 1.
      apply lastn_app_exact.
    - rewrite observeAll_lastn by exact Hlen. apply lastn_length. }
  split; [exact Hh|].
  assert (Hm := smoothPosition_mean
                  (observeAll w history (repeat (px, py) k)) px py w).
  fold result in Hm. rewrite Hh in Hm.
  replace (k + 1)%nat with (S k) in Hm by lia.
  specialize (Hm ltac:(discriminate)). rewrite Hm. cbn [fst snd].
  rewrite !map_repeat. cbn [fst snd]. split; apply mean_repeat.
Qed.

Lemma X10_smoothing_converges_witness :
  fst (smoothPosition
         (observeAll (ofZ (Z.of_nat 2)) [(Num 9, Num 9)]
                     (repeat (Num 4, Num 5) 2))
         (Num 4) (Num 5) (ofZ (Z.of_nat 2)))
  = repeat (Num 4, Num 5) (2 + 1).
Proof.
  assert (H : (length [(Num 9, Num 9)] <= 2 + 1)%nat) by (cbn [length]; lia).
  exact (proj1 (X10_smoothing_converges 2 [(Num 9, Num 9)] (Num 4) (Num 5) H)).
Defined.

(** ** The history and the reported position over a run of frames *)

Section RunFacts.

Lemma smoothPosition_empty (history : list (num * num))
    (px py smoothing : num) :
  fst (smoothPosition history px py smoothing) = [] ->
  snd (smoothPosition history px py smoothing) = (px, py).
Proof.
  unfold smoothPosition.
  match goal with
  | |- context [(length ?l =? 0)%nat] => destruct (length l =? 0)%nat eqn:E
  end; cbn [fst snd]; [reflexivity|].
  intro H. rewrite H in E. discriminate.
Qed.

Lemma smoothPosition_kept (history : list (num * num))
    (px py smoothing : num) (p : num * num) :
  In p (fst (smoothPosition history px py smoothing)) ->
  In p history \/ p = (px, py).
Proof.
  rewrite smoothPosition_history. intro H.
  assert (Hin : In p (history ++ [(px, py)])).
  { destruct (_ >? _)%num; [|exact H].
    destruct (history ++ [(px, py)]); [destruct H | now right]. }
  apply in_app_or in Hin. destruct Hin as [Hin | [<- | []]]; auto.
Qed.

(** One frame keeps the bound on the length of the history. *)
Lemma processFrame_bound (refs : Refs) (im : ImageData)
    (settings : DetectorSettings) (w : Q) :
  smoothing settings = Num w -> 0 <= w ->
  (lengthOf (positionHistoryRef refs) <=? Num w + Num 1)%num = true ->
  (lengthOf (positionHistoryRef (fst (processFrame refs im settings)))
   <=? Num w + Num 1)%num = true.
Proof.
  intros Hs Hw Hb. unfold processFrame. rewrite Hs.
  destruct (found (detectLaser im settings) && (Num w >? Num 0)%num).
  - pose proof (smoothPosition_bound (positionHistoryRef refs)
                  (x (detectLaser im settings)) (y (detectLaser im settings))
                  w Hb) as H.
    destruct (smoothPosition _ _ _ _) as [h [sx sy]]. exact H.
  - destruct (negb (found (detectLaser im settings))); cbn [fst positionHistoryRef].
    + now apply empty_bound.
    + exact Hb.
Qed.

Variables W H : Z.

Lemma detection_inside (im : ImageData) (settings : DetectorSettings) :
  width im = W -> height im = H ->
  found (detectLaser im settings) = true ->
  insideFrame W H (x (detectLaser im settings), y (detectLaser im settings)).
Proof.
  intros <- <- Hf.
  destruct (found_position im settings Hf)
    as [top [zx [zy [_ [Hx [Hy [Hbx [Hby _]]]]]]]].
  rewrite Hx, Hy. exists (inject_Z zx), (inject_Z zy).
  split; [reflexivity|]. change 0 with (inject_Z 0).
  rewrite <- !Zle_Qle. lia.
Qed.

Lemma mean_inside (h : list (num * num)) :
  h <> [] -> Forall (insideFrame W H) h ->
  insideFrame W H (spec_mean (map fst h), spec_mean (map snd h)).
Proof.
  intros Hne Hall. rewrite Forall_forall in Hall.
  destruct (mean_bounds 0 (inject_Z (W - 1)) (map fst h)) as [mx [Hmx Hbx]].
  { destruct h; [congruence | discriminate]. }
  { intros v Hin. apply in_map_iff in Hin. destruct Hin as [p [<- Hin]].
    destruct (Hall p Hin) as [qx [qy [-> [Hqx _]]]]. exists qx. now split. }
  destruct (mean_bounds 0 (inject_Z (H - 1)) (map snd h)) as [my [Hmy Hby]].
  { destruct h; [congruence | discriminate]. }
  { intros v Hin. apply in_map_iff in Hin. destruct Hin as [p [<- Hin]].
    destruct (Hall p Hin) as [qx [qy [-> [_ Hqy]]]]. exists qy. now split. }
  exists mx, my. rewrite Hmx, Hmy. repeat split; tauto.
Qed.

(** One frame keeps every held position inside the frame and reports a
    position inside the frame. *)
Lemma processFrame_inside (refs : Refs) (im : ImageData)
    (settings : DetectorSettings) :
  width im = W -> height im = H ->
  Forall (insideFrame W H) (positionHistoryRef refs) ->
  Forall (insideFrame W H)
         (positionHistoryRef (fst (processFrame refs im settings)))
  /\ (found (snd (processFrame refs im settings)) = true ->
      insideFrame W H (x (snd (processFrame refs im settings)),
                       y (snd (processFrame refs im settings)))).
Proof.
  intros Hw Hh Hall. unfold processFrame.
  destruct (found (detectLaser im settings)) eqn:Ef; cbn [andb negb].
  - pose proof (detection_inside im settings Hw Hh Ef) as Hpos.
    destruct (smoothing settings >? Num 0)%num.
    + pose proof (smoothPosition_kept (positionHistoryRef refs)
                    (x (detectLaser im settings)) (y (detectLaser im settings))
                    (smoothing settings)) as Hkept.
      pose proof (smoothPosition_mean (positionHistoryRef refs)
                    (x (detectLaser im settings)) (y (detectLaser im settings))
                    (smoothing settings)) as Hmean.
      pose proof (smoothPosition_empty (positionHistoryRef refs)
                    (x (detectLaser im settings)) (y (detectLaser im settings))
                    (smoothing settings)) as Hempty.
      destruct (smoothPosition _ _ _ _) as [h [sx sy]].
      cbn [fst snd positionHistoryRef found x y] in *.
      assert (Hh' : Forall (insideFrame W H) h).
      { apply Forall_forall. intros p Hin.
        destruct (Hkept p Hin) as [Hold | ->]; [|exact Hpos].
        rewrite Forall_forall in Hall. now apply Hall. }
      split; [exact Hh'|]. intros _.
      destruct h as [|p h0].
      * specialize (Hempty eq_refl).
        pose proof (f_equal fst Hempty) as E1.
        pose proof (f_equal snd Hempty) as E2. cbn [fst snd] in E1, E2.
        rewrite E1, E2. exact Hpos.
      * specialize (Hmean ltac:(discriminate)).
        pose proof (f_equal fst Hmean) as E1.
        pose proof (f_equal snd Hmean) as E2. cbn [fst snd] in E1, E2.
        rewrite E1, E2. apply mean_inside; [discriminate | exact Hh'].
    + cbn [fst snd]. split; [exact Hall|]. intros _. exact Hpos.
  - cbn [fst snd positionHistoryRef]. split; [constructor|].
    rewrite Ef. discriminate.
Qed.

End RunFacts.

(** X11. Over any run of frames processed with one smoothing value w >= 0,
    the position history never holds more than w + 1 positions, provided it
    did not at the start. *)
Theorem X11_history_bounded_over_run (settings : DetectorSettings) (w : Q)
    (ims : list ImageData) (refs : Refs) :
  smoothing settings = Num w -> 0 <= w ->
  (lengthOf (positionHistoryRef refs) <=? Num w + Num 1)%num = true ->
  (lengthOf (positionHistoryRef
               (fst (processFrames refs (map (fun im => (im, settings)) ims))))
   <=? Num w + Num 1)%num = true.
Proof.
  intros Hs Hw. revert refs.
  induction ims as [|im ims IH]; intros refs Hb; [exact Hb|].
  cbn [map processFrames].
  pose proof (processFrame_bound refs im settings w Hs Hw Hb) as Hstep.
  destruct (processFrame refs im settings) as [refs' d]. cbn [fst] in Hstep.
  specialize (IH refs' Hstep).
  destruct (processFrames refs' _) as [refs'' ds]. exact IH.
Qed.

Lemma X11_history_bounded_over_run_witness :
  (lengthOf (positionHistoryRef
               (fst (processFrames noRefs
                       (map (fun im => (im, DEFAULT_SETTINGS))
                            [whiteAt0; whiteAt2; grayFrame; whiteAt2]))))
   <=? Num 3 + Num 1)%num = true.
Proof.
  apply (X11_history_bounded_over_run DEFAULT_SETTINGS 3
           [whiteAt0; whiteAt2; grayFrame; whiteAt2] noRefs).
  - reflexivity.
  - intro E. discriminate E.
  - reflexivity.
Defined.

(** X12. Over any run of frames of one size, whatever the settings of each
    frame, every result with [found = true] reports a position inside the
    frame (0 <= x <= width - 1, 0 <= y <= height - 1), smoothed or not,
    provided the positions held at the start are inside the frame. *)
Theorem X12_reported_position_inside_frame (W H : Z)
    (inputs : list (ImageData * DetectorSettings)) (refs : Refs) :
  (forall im s, In (im, s) inputs -> width im = W /\ height im = H) ->
  Forall (insideFrame W H) (positionHistoryRef refs) ->
  Forall (fun d => found d = true -> insideFrame W H (x d, y d))
         (snd (processFrames refs inputs)).
Proof.
  revert refs. induction inputs as [|[im s] rest IH]; intros refs Hsize Hall.
  - constructor.
  - cbn [processFrames].
    destruct (Hsize im s (or_introl eq_refl)) as [Hw Hh].
    pose proof (processFrame_inside W H refs im s Hw Hh Hall) as [Hh' Hd].
    destruct (processFrame refs im s) as [refs' d]. cbn [fst snd] in Hh', Hd.
    assert (Hrest := IH refs' (fun im' s' Hin => Hsize im' s' (or_intror Hin))
                        Hh').
    destruct (processFrames refs' rest) as [refs'' ds]. cbn [snd] in *.
    constructor; assumption.
Qed.

Lemma X12_reported_position_inside_frame_witness :
  Forall (fun d => found d = true -> insideFrame 3 1 (x d, y d))
         (snd (processFrames noRefs
                 [(whiteAt0, DEFAULT_SETTINGS); (whiteAt2, DEFAULT_SETTINGS)])).
Proof.
  apply (X12_reported_position_inside_frame 3 1
           [(whiteAt0, DEFAULT_SETTINGS); (whiteAt2, DEFAULT_SETTINGS)] noRefs).
  - intros im s [E | [E | []]]; injection E as <- _; split; reflexivity.
  - constructor.
Defined.

(** ** The calibration result follows the brightness of the scene *)

Section CalibrationBounds.

Variables lo hi : Q.

Lemma pixelMean_within (d : list byte) (v : num) :
  brightnessWithin lo hi d ->
  In v (map pixelMean (spec_pixels d)) ->
  exists q, v = Num q /\ lo <= q <= hi.
Proof.
  intros Hd Hin. apply in_map_iff in Hin.
  destruct Hin as [[[r g] b] [<- Hin]]. specialize (Hd r g b Hin).
  unfold pixelMean, byteNum.
  destruct (brightness_of_bytes (Z.of_N (Byte.to_N r)) (Z.of_N (Byte.to_N g))
              (Z.of_N (Byte.to_N b))) as [q [Hq Hv]].
  exists q. split; [exact Hq|].
  rewrite !inject_Z_plus in Hd. lra.
Qed.

Lemma frameMean_within (d : list byte) :
  rgbaBuffer d -> d <> [] -> brightnessWithin lo hi d ->
  exists q, spec_frameMean d = Num q /\ lo <= q <= hi.
Proof.
  intros [n Hlen] Hne Hd. unfold spec_frameMean. apply mean_bounds.
  - destruct d as [|r [|g [|b [|a rest]]]]; try (cbn in Hlen; lia).
    + congruence.
    + discriminate.
  - intros v Hin. now apply (pixelMean_within d).
Qed.

End CalibrationBounds.

(** X13. When every pixel of every frame ingested during a calibration has
    a mean brightness (R+G+B)/3 between lo and hi, the completed
    calibration has [avgBrightness] between lo and hi as well, and
    [threshold] equal to it plus 150 minus the sensitivity. In particular
    a scene of one uniform brightness v calibrates to avgBrightness v. *)
Theorem X13_calibration_within_scene_brightness (lo hi q : Q) (refs : Refs)
    (settings : DetectorSettings) (start : Z)
    (earlier : list (ImageData * Z)) (im : ImageData) (t : Z) :
  sensitivity settings = Num q ->
  (forall im' t', In (im', t') earlier -> (t' - start < 2000)%Z) ->
  (2000 <= t - start)%Z ->
  (forall im' t', In (im', t') (earlier ++ [(im, t)]) ->
                  rgbaBuffer (data im') /\ data im' <> []
                  /\ brightnessWithin lo hi (data im')) ->
  exists a th,
    calibrationDataRef
      (fst (collectFrames (fst (startCalibration refs settings start))
                          (snd (startCalibration refs settings start))
                          (earlier ++ [(im, t)])))
    = Some (mkCalibration (Num a) (Num th))
    /\ lo <= a <= hi /\ th == a + 150 - q.
Proof.
  intros Hs Hopen Hexp Hframes.
  unfold startCalibration. cbn [fst snd].
  rewrite collectFrames_expired by assumption. cbn [calibrationDataRef].
  destruct (mean_bounds lo hi
              (map (fun i => frameBrightness (data (fst i)))
                   (earlier ++ [(im, t)]))) as [a [Ha Hb]].
  - destruct earlier; discriminate.
  - intros v Hin. apply in_map_iff in Hin.
    destruct Hin as [[im' t'] [<- Hin]]. cbn [fst].
    destruct (Hframes im' t' Hin) as [Hrgba [Hne Hw]].
    rewrite frameBrightness_mean by exact Hrgba.
    now apply frameMean_within.
  - rewrite Ha, Hs. unfold add, sub, lift2.
    eexists. eexists. split; [reflexivity|]. split; [exact Hb|].
    rewrite !Qred_correct. ring.
Qed.

Lemma grayFrame_within : brightnessWithin 128 128 (data grayFrame).
Proof.
  intros r g b Hin. cbn in Hin.
  destruct Hin as [E | [E | [E | [E | []]]]]; injection E as <- <- <-;
    vm_compute; split; discriminate.
Qed.

Lemma X13_calibration_within_scene_brightness_witness :
  exists a th,
    calibrationDataRef
      (fst (collectFrames (fst (startCalibration noRefs DEFAULT_SETTINGS 0))
                          (snd (startCalibration noRefs DEFAULT_SETTINGS 0))
                          ([(grayFrame, 16%Z)] ++ [(grayFrame, 2000%Z)])))
    = Some (mkCalibration (Num a) (Num th))
    /\ 128 <= a <= 128 /\ th == a + 150 - 50.
Proof.
  apply (X13_calibration_within_scene_brightness 128 128 50 noRefs
           DEFAULT_SETTINGS 0 [(grayFrame, 16%Z)] grayFrame 2000).
  - reflexivity.
  - intros im' t' [E | []]. injection E as _ <-. lia.
  - lia.
  - intros im' t' [E | [E | []]]; injection E as <- _;
      (split; [exists 4%nat; reflexivity
              | split; [discriminate | exact grayFrame_within]]).
Defined.

(** ** The marker drawn by the camera view *)

Section MarkerFacts.

Lemma orOne_positive (z : Z) : (0 < z)%Z -> orOne (ofZ z) = ofZ z.
Proof.
  intro Hz. unfold orOne, ofZ.
  destruct (Qeq_bool (inject_Z z) 0) eqn:E; [|reflexivity].
  apply Qeq_bool_eq in E.
  assert (Hq : inject_Z 0 < inject_Z z) by (rewrite <- Zlt_Qlt; exact Hz).
  change (inject_Z 0) with 0 in Hq. rewrite E in Hq. exfalso. lra.
Qed.

(** Scaling a coordinate of the frame to the display. *)
Lemma scaled_inside (q dsize : Q) (n : Z) :
  0 <= q <= inject_Z (n - 1) -> 0 <= dsize ->
  exists m, (Num q * (Num dsize / orOne (ofZ n)))%num = Num m
            /\ 0 <= m <= dsize.
Proof.
  intros [Hq0 Hq1] Hd.
  assert (Hn : (0 < n)%Z).
  { assert (H : inject_Z 0 <= inject_Z (n - 1)) by (change (inject_Z 0) with 0; lra).
    rewrite <- Zle_Qle in H. lia. }
  rewrite (orOne_positive n Hn). unfold ofZ, div.
  assert (Hnq : 0 < inject_Z n).
  { change 0 with (inject_Z 0). rewrite <- Zlt_Qlt. exact Hn. }
  destruct (Qeq_bool (inject_Z n) 0) eqn:E.
  { apply Qeq_bool_eq in E. rewrite E in Hnq. exfalso. lra. }
  unfold mul, lift2. eexists. split; [reflexivity|].
  rewrite !Qred_correct.
  assert (Hq1' : q <= inject_Z n).
  { assert (Hle : inject_Z (n - 1) <= inject_Z n)
      by (rewrite <- Zle_Qle; lia).
    lra. }
  set (r := dsize / inject_Z n).
  assert (Hr : r * inject_Z n == dsize).
  { unfold r. field. lra. }
  assert (Hr0 : 0 <= r).
  { unfold r. apply Qle_shift_div_l; [exact Hnq | lra]. }
  split; [nra|]. rewrite <- Hr. nra.
Qed.

End MarkerFacts.



Example marker_mirrored :
  getMarkerPosition (Some (Num 3, Num 1)) (mkDimensions (Num 300) (Num 100))
    (detectLaser whiteAt2 DEFAULT_SETTINGS)
    (mkSettings (Num 50) ModeAuto (Num 3) true true (Num 0))
  = Some (Num 100, Num 0).
Proof. vm_compute. reflexivity. Qed.

(** ** The rotation button *)

(** X15. [handleRotation] changes the rotation only, keeps it among 0, 90,
    180 and 270 when it was, and four presses restore the settings. *)
Theorem X15_rotation_cycles (settings : DetectorSettings) :
  rightAngle (rotation settings) ->
  rightAngle (rotation (handleRotation settings))
  /\ handleRotation
       (handleRotation (handleRotation (handleRotation settings)))
     = settings
  /\ sensitivity (handleRotation settings) = sensitivity settings
  /\ colorMode (handleRotation settings) = colorMode settings
  /\ smoothing (handleRotation settings) = smoothing settings
  /\ flickerFilter (handleRotation settings) = flickerFilter settings
  /\ mirror (handleRotation settings) = mirror settings.
Proof.
  destruct settings as [sens mode sm ff mi ro]. cbn [rotation].
  unfold rightAngle.
  intros [-> | [-> | [-> | ->]]];
    (split; [vm_compute; tauto|]);
    (split; [unfold handleRotation;
             cbn [sensitivity colorMode smoothing flickerFilter mirror rotation];
             f_equal; vm_compute; reflexivity|]);
    repeat split; reflexivity.
Qed.

Lemma X15_rotation_cycles_witness :
  rightAngle (rotation (handleRotation DEFAULT_SETTINGS)).
Proof.
  apply (X15_rotation_cycles DEFAULT_SETTINGS). left. reflexivity.
Defined.

(** ** The flags of the hook *)

Section HookFacts.

Lemma hookStep_invariant (st : HookState) (ev : HookEvent) :
  hookInvariant st -> hookInvariant (hookStep st ev).
Proof.
  unfold hookInvariant. intros [H1 H2].
  destruct ev as [| | s now | run im now | im s]; cbn [hookStep].
  - cbn. auto.
  - cbn. auto.
  - cbn. split; [reflexivity | discriminate].
  - unfold collectFrame.
    destruct (now - startTime run <? 2000)%Z; cbn.
    + auto.
    + split; [reflexivity | discriminate].
  - destruct (cameraActive st && negb (calibrating st)); [|auto].
    pose proof (processFrame_calibration (positionHistoryRef (hookRefs st))
                  (calibrationDataRef (hookRefs st))
                  (calibrationDataRef (hookRefs st)) im s) as [_ [_ Hc]].
    destruct (hookRefs st) as [h c] eqn:Er. cbn [positionHistoryRef
      calibrationDataRef] in *.
    destruct (processFrame (mkRefs h c) im s) as [refs' d]. cbn in *.
    split; [exact H1|]. intro Hcomp. rewrite Hc. now apply H2.
Qed.

End HookFacts.

(** X16. After any sequence of camera, calibration and frame events from
    the initial state, [calibrating] and [calibrationComplete] are never
    both set, and whenever [calibrationComplete] is set a calibration
    result is installed. *)
Theorem X16_calibration_flags (events : list HookEvent) :
  (calibrating (hookRun events) && calibrationComplete (hookRun events)
   = false)
  /\ (calibrationComplete (hookRun events) = true ->
      calibrationDataRef (hookRefs (hookRun events)) <> None).
Proof.
  unfold hookRun.
  assert (G : forall st, hookInvariant st ->
                         hookInvariant (fold_left hookStep events st)).
  { induction events as [|ev evs IH]; intros st Hst; [exact Hst|].
    cbn [fold_left]. apply IH. now apply hookStep_invariant. }
  apply (G initialHook). split; [reflexivity | discriminate].
Qed.

(** ** The bloom check rejects an isolated bright pixel *)

Section BloomFacts.

Variable im : ImageData.
Variable settings : DetectorSettings.

(** The bloom loops count the samples inside the frame and, among them,
    the bright ones. *)
Lemma bloomCount_counts (top : Candidate) :
  bloomCount im settings top
  = (Z.of_nat (length (filter (fun p => sampleInside im p
                                        && sampleBright im settings p)
                              (bloomSamples top))),
     Z.of_nat (length (filter (sampleInside im) (bloomSamples top)))).
Proof.
  unfold bloomCount, bloomSamples. fold bloomOffsets.
  set (body := fun (acc : Z * Z) (p : Z * Z) =>
                 if outOfBounds im (fst p) (snd p) then acc
                 else ((if sampleBright im settings p
                        then fst acc + 1 else fst acc)%Z,
                       (snd acc + 1)%Z)).
  assert (E1 : fold_left
                 (fun acc dy =>
                    fold_left (bloomSample im settings top dy) bloomOffsets acc)
                 bloomOffsets (0%Z, 0%Z)
               = fold_left body
                   (flat_map
                      (fun dy => map (fun dx => ((cx top + dx)%Z,
                                                 (cy top + dy)%Z))
                                     bloomOffsets) bloomOffsets) (0%Z, 0%Z)).
  { rewrite fold_left_flat_map. apply fold_left_ext_in. intros acc dy _.
    rewrite fold_left_map. apply fold_left_ext_in. intros [bp tc] dx _.
    unfold bloomSample, body, sampleBright. cbn [fst snd]. reflexivity. }
  rewrite E1.
  generalize (flat_map
                (fun dy => map (fun dx => ((cx top + dx)%Z, (cy top + dy)%Z))
                               bloomOffsets) bloomOffsets) as l.
  assert (G : forall l bp tc,
             fold_left body l (bp, tc)
             = ((bp + Z.of_nat (length (filter (fun p => sampleInside im p
                                        && sampleBright im settings p) l)))%Z,
                (tc + Z.of_nat (length (filter (sampleInside im) l)))%Z)).
  { induction l as [|p l IH]; intros bp tc.
    - cbn. f_equal; lia.
    - cbn [fold_left filter].
      destruct (body (bp, tc) p) as [bp' tc'] eqn:Eb. rewrite IH.
      unfold body in Eb. unfold sampleInside. cbn [fst snd] in Eb.
      destruct (outOfBounds im (fst p) (snd p)); cbn [negb andb].
      + inversion Eb; subst. reflexivity.
      + destruct (sampleBright im settings p); inversion Eb; subst;
          cbn [length]; f_equal; lia. }
  intro l. rewrite G. reflexivity.
Qed.

Lemma filter_length_le {A : Type} (f g : A -> bool) (l : list A) :
  (forall a, In a l -> f a = true -> g a = true) ->
  (length (filter f l) <= length (filter g l))%nat.
Proof.
  induction l as [|a l IH]; intro H; [reflexivity|].
  cbn [filter].
  assert (IH' := IH (fun a' Hin => H a' (or_intror Hin))).
  destruct (f a) eqn:Ef.
  - rewrite (H a (or_introl eq_refl) Ef). cbn [length]. lia.
  - destruct (g a); cbn [length]; lia.
Qed.

(** Counting over the square of offsets, axis by axis. *)
Lemma square_count (fx fy : Z -> bool) (c1 c2 : Z) (ox oy : list Z) :
  length (filter (fun p => fx (fst p) && fy (snd p))
            (flat_map (fun dy => map (fun dx => ((c1 + dx)%Z, (c2 + dy)%Z)) ox)
                      oy))
  = (length (filter (fun dx => fx (c1 + dx)%Z) ox)
     * length (filter (fun dy => fy (c2 + dy)%Z) oy))%nat.
Proof.
  induction oy as [|dy oy IH]; cbn [flat_map filter length].
  - lia.
  - rewrite filter_app, length_app, IH.
    assert (E : length (filter (fun p => fx (fst p) && fy (snd p))
                          (map (fun dx => ((c1 + dx)%Z, (c2 + dy)%Z)) ox))
                = if fy (c2 + dy)%Z
                  then length (filter (fun dx => fx (c1 + dx)%Z) ox) else 0%nat).
    { clear IH. induction ox as [|dx ox IHx]; cbn [map filter length fst snd].
      - destruct (fy (c2 + dy)%Z); reflexivity.
      - destruct (fx (c1 + dx)%Z), (fy (c2 + dy)%Z); cbn [andb length];
          rewrite IHx; reflexivity. }
    rewrite E. destruct (fy (c2 + dy)%Z); cbn [length]; lia.
Qed.

Lemma count_at_least {A : Type} (f : A -> bool) (l' l : list A) :
  NoDup l' -> incl l' l -> (forall a, In a l' -> f a = true) ->
  (length l' <= length (filter f l))%nat.
Proof.
  intros Hnd Hincl Hf. apply NoDup_incl_length; [exact Hnd|].
  intros a Hin. apply filter_In. split; [now apply Hincl | now apply Hf].
Qed.

Lemma count_equal_at_most_one (c v : Z) (l : list Z) :
  NoDup l -> (length (filter (fun d => (c + d =? v)%Z) l) <= 1)%nat.
Proof.
  induction 1 as [|d l Hnin Hnd IH]; cbn [filter length]; [lia|].
  destruct (Z.eqb_spec (c + d) v) as [E | E]; [|exact IH].
  cbn [length].
  assert (Hnone : filter (fun d' => (c + d' =? v)%Z) l = []).
  { destruct (filter (fun d' => (c + d' =? v)%Z) l) as [|d' r] eqn:Ef;
      [reflexivity|].
    assert (Hin : In d' (filter (fun d' => (c + d' =? v)%Z) l))
      by (rewrite Ef; now left).
    apply filter_In in Hin. destruct Hin as [Hin Heq].
    apply Z.eqb_eq in Heq. assert (d' = d) by lia. subst d'. contradiction. }
  rewrite Hnone. cbn [length]. lia.
Qed.

Lemma bloomOffsets_value :
  bloomOffsets = [-15; -12; -9; -6; -3; 0; 3; 6; 9; 12; 15]%Z.
Proof. reflexivity. Qed.

Lemma bloomOffsets_NoDup : NoDup bloomOffsets.
Proof.
  rewrite bloomOffsets_value.
  repeat (constructor; [cbn [In]; intuition lia|]). constructor.
Qed.

(** On each axis at least five of the eleven samples fall inside a frame
    that is at least 16 pixels long. *)
Lemma axis_inside (c n : Z) :
  (0 <= c < n)%Z -> (16 <= n)%Z ->
  (5 <= length (filter (fun d => negb ((c + d <? 0) || (c + d >=? n))%Z)
                       bloomOffsets))%nat.
Proof.
  intros Hc Hn.
  assert (Hok : forall d, (0 <= c + d < n)%Z ->
                          negb ((c + d <? 0) || (c + d >=? n))%Z = true).
  { intros d Hd. rewrite Z.geb_leb.
    replace (c + d <? 0)%Z with false by (symmetry; apply Z.ltb_ge; lia).
    replace (n <=? c + d)%Z with false by (symmetry; apply Z.leb_gt; lia).
    reflexivity. }
  assert (Hcase : (c <= 2 \/ 3 <= c <= 5 \/ 6 <= c <= 8 \/ 9 <= c <= 11
                   \/ 12 <= c)%Z) by lia.
  rewrite bloomOffsets_value.
  destruct Hcase as [H | [H | [H | [H | H]]]].
  - apply (count_at_least _ [0; 3; 6; 9; 12]%Z).
    + repeat (constructor; [cbn [In]; intuition lia|]). constructor.
    + intros d Hd. cbn [In] in *. intuition lia.
    + intros d Hd. apply Hok. cbn [In] in Hd. intuition lia.
  - apply (count_at_least _ [-3; 0; 3; 6; 9]%Z).
    + repeat (constructor; [cbn [In]; intuition lia|]). constructor.
    + intros d Hd. cbn [In] in *. intuition lia.
    + intros d Hd. apply Hok. cbn [In] in Hd. intuition lia.
  - apply (count_at_least _ [-6; -3; 0; 3; 6]%Z).
    + repeat (constructor; [cbn [In]; intuition lia|]). constructor.
    + intros d Hd. cbn [In] in *. intuition lia.
    + intros d Hd. apply Hok. cbn [In] in Hd. intuition lia.
  - apply (count_at_least _ [-9; -6; -3; 0; 3]%Z).
    + repeat (constructor; [cbn [In]; intuition lia|]). constructor.
    + intros d Hd. cbn [In] in *. intuition lia.
    + intros d Hd. apply Hok. cbn [In] in Hd. intuition lia.
  - apply (count_at_least _ [-12; -9; -6; -3; 0]%Z).
    + repeat (constructor; [cbn [In]; intuition lia|]). constructor.
    + intros d Hd. cbn [In] in *. intuition lia.
    + intros d Hd. apply Hok. cbn [In] in Hd. intuition lia.
Qed.

(** At least 25 samples fall inside a frame of at least 16 x 16 pixels. *)
Lemma samples_inside (top : Candidate) :
  (0 <= cx top < width im)%Z -> (0 <= cy top < height im)%Z ->
  (16 <= width im)%Z -> (16 <= height im)%Z ->
  (25 <= length (filter (sampleInside im) (bloomSamples top)))%nat.
Proof.
  intros Hx Hy Hw Hh.
  rewrite (filter_ext (sampleInside im)
             (fun p => negb ((fst p <? 0) || (fst p >=? width im))%Z
                       && negb ((snd p <? 0) || (snd p >=? height im))%Z)).
  - unfold bloomSamples.
    pose proof (square_count
                  (fun nx => negb ((nx <? 0) || (nx >=? width im))%Z)
                  (fun ny => negb ((ny <? 0) || (ny >=? height im))%Z)
                  (cx top) (cy top) bloomOffsets bloomOffsets) as E.
    cbv beta in E. rewrite E.
    pose proof (axis_inside (cx top) (width im) Hx Hw).
    pose proof (axis_inside (cy top) (height im) Hy Hh). nia.
  - intros [nx ny]. unfold sampleInside, outOfBounds. cbn [fst snd].
    rewrite <- negb_orb, !orb_assoc. reflexivity.
Qed.

(** At most one sample is the pixel at ([x0], [y0]). *)
Lemma samples_at_most_one (top : Candidate) (x0 y0 : Z) :
  (length (filter (fun p => (fst p =? x0)%Z && (snd p =? y0)%Z)
                  (bloomSamples top)) <= 1)%nat.
Proof.
  unfold bloomSamples.
  pose proof (square_count (fun nx => (nx =? x0)%Z) (fun ny => (ny =? y0)%Z)
                (cx top) (cy top) bloomOffsets bloomOffsets) as E.
  cbv beta in E. rewrite E.
  pose proof (count_equal_at_most_one (cx top) x0 _ bloomOffsets_NoDup).
  pose proof (count_equal_at_most_one (cy top) y0 _ bloomOffsets_NoDup).
  nia.
Qed.

End BloomFacts.

Section IsolatedPixel.

Variable im : ImageData.
Variable settings : DetectorSettings.
Variable q : Q.
Hypothesis Hsens : sensitivity settings = Num q.
Hypothesis Hq : q <= 100.

Lemma brightnessAt_of (px py r g b : Z) :
  pixelIs im px py r g b ->
  brightnessAt im px py = ((ofZ r + ofZ g + ofZ b) / Num 3)%num.
Proof.
  unfold pixelIs, pixelAt, brightnessAt. intro H.
  pose proof (f_equal (fun t => fst (fst t)) H) as Hr.
  pose proof (f_equal (fun t => snd (fst t)) H) as Hg.
  pose proof (f_equal snd H) as Hb. cbn [fst snd] in Hr, Hg, Hb.
  rewrite Hr, Hg, Hb. reflexivity.
Qed.

(** A pixel with R + G + B <= 252 is not a bright sample. *)
Lemma dim_sample_not_bright (px py r g b : Z) :
  pixelIs im px py r g b -> (r + g + b <= 252)%Z ->
  sampleBright im settings (px, py) = false.
Proof.
  intros Hp Hsum. unfold sampleBright. cbn [fst snd].
  rewrite (brightnessAt_of px py r g b Hp).
  destruct (brightness_of_bytes r g b) as [br [Hbr Hv]]. rewrite Hbr.
  destruct (bloomThreshold_value settings q Hsens) as [m [Hm Hmv]].
  rewrite Hm. unfold mul, lift2. apply gtb_Num_false. rewrite Qred_correct.
  assert (H : inject_Z (r + g + b) <= inject_Z 252)
    by (rewrite <- Zle_Qle; exact Hsum).
  rewrite !inject_Z_plus in H. change (inject_Z 252) with 252 in H.
  rewrite Hmv. change 0.7 with (7 # 10). lra.
Qed.

(** The bloom threshold on the ratio is at least 5 percent. *)
Lemma bloom_ratio_threshold :
  exists t, (Num 0.15 - sensitivityFactor settings * Num 0.1)%num = Num t
            /\ 1 # 20 <= t.
Proof.
  unfold sensitivityFactor. rewrite Hsens. unfold div.
  change (Qeq_bool 100 0) with false. cbv iota. unfold mul, sub, lift2.
  eexists. split; [reflexivity|]. rewrite !Qred_correct.
  change 0.15 with (15 # 100). change 0.1 with (1 # 10).
  assert (E : q / 100 == q * (1 # 100)) by field.
  rewrite E. lra.
Qed.

Lemma isolated_no_bloom (top : Candidate) (x0 y0 : Z) :
  (0 <= cx top < width im)%Z -> (0 <= cy top < height im)%Z ->
  (16 <= width im)%Z -> (16 <= height im)%Z ->
  dimExcept im x0 y0 ->
  hasBloom im settings top = false.
Proof.
  intros Hx Hy Hw Hh Hdim. unfold hasBloom. rewrite bloomCount_counts.
  set (nb := length (filter (fun p => sampleInside im p
                                      && sampleBright im settings p)
                            (bloomSamples top))).
  set (nt := length (filter (sampleInside im) (bloomSamples top))).
  assert (Hnt : (25 <= nt)%nat) by (apply samples_inside; assumption).
  assert (Hnb : (nb <= 1)%nat).
  { unfold nb.
    apply Nat.le_trans
      with (m := length (filter (fun p => (fst p =? x0)%Z && (snd p =? y0)%Z)
                                (bloomSamples top)));
      [|apply samples_at_most_one].
    apply filter_length_le. intros [px py] _ Hp.
    apply andb_true_iff in Hp. destruct Hp as [Hin Hbright].
    unfold sampleInside in Hin. apply negb_true_iff in Hin.
    cbn [fst snd] in *. apply outOfBounds_inv in Hin. destruct Hin as [Hpx Hpy].
    assert (Hnot : (px, py) <> (x0, y0) -> False).
    { intro Hne. destruct (Hdim px py Hpx Hpy Hne) as [r [g [b [Hpix Hsum]]]].
      rewrite (dim_sample_not_bright px py r g b Hpix Hsum) in Hbright.
      discriminate. }
    destruct (Z.eqb_spec px x0) as [Ex | Hnx];
      destruct (Z.eqb_spec py y0) as [Ey | Hny]; cbn [andb];
      try reflexivity; exfalso; apply Hnot; congruence. }
  replace (Z.of_nat nt >? 0)%Z with true by (symmetry; apply Z.gtb_lt; lia).
  destruct bloom_ratio_threshold as [t [Ht Htb]]. rewrite Ht.
  unfold ofZ, div.
  assert (Hntq : inject_Z 25 <= inject_Z (Z.of_nat nt))
    by (rewrite <- Zle_Qle; lia).
  assert (Hnbq : inject_Z (Z.of_nat nb) <= inject_Z 1)
    by (rewrite <- Zle_Qle; lia).
  change (inject_Z 25) with 25 in Hntq. change (inject_Z 1) with 1 in Hnbq.
  destruct (Qeq_bool (inject_Z (Z.of_nat nt)) 0) eqn:E.
  { apply Qeq_bool_eq in E. rewrite E in Hntq. exfalso. lra. }
  apply gtb_Num_false. rewrite Qred_correct.
  apply Qle_trans with (y := 1 # 20); [|exact Htb].
  apply Qle_shift_div_r; lra.
Qed.

End IsolatedPixel.

(** X17. An isolated bright pixel is rejected by the bloom check: in a frame
    of at least 16 x 16 pixels in which every pixel but one has
    R + G + B <= 252, and with a sensitivity of at most 100, nothing is
    found, however bright the remaining pixel is. *)
Theorem X17_isolated_pixel_rejected (im : ImageData)
    (settings : DetectorSettings) (q : Q) (x0 y0 : Z) :
  sensitivity settings = Num q -> q <= 100 ->
  (16 <= width im)%Z -> (16 <= height im)%Z ->
  dimExcept im x0 y0 ->
  detectLaser im settings = notFound.
Proof.
  intros Hs Hq Hw Hh Hdim. unfold detectLaser.
  destruct (topCandidate im settings) as [top|] eqn:Etop; [|reflexivity].
  destruct (topCandidate_scanned _ _ _ Etop) as [px [py [Hx [Hy Hp]]]].
  apply scanPixel_Some in Hp. destruct Hp as [Hcx [Hcy _]].
  apply range_bounds in Hx; [|unfold step; lia].
  apply range_bounds in Hy; [|unfold step; lia].
  rewrite (isolated_no_bloom im settings q Hs Hq top x0 y0)
    by (try assumption; lia).
  rewrite andb_false_r, intensity_zero. reflexivity.
Qed.

Lemma spotFrame_dimExcept : dimExcept spotFrame 0 0.
Proof.
  intros px py Hx Hy Hne. cbn [width height spotFrame] in Hx, Hy.
  exists 0%Z, 0%Z, 0%Z. split; [|lia].
  assert (Hi : (4 <= (py * 16 + px) * 4 < 1024 - 2)%Z).
  { assert (px <> 0 \/ py <> 0)%Z by (destruct (Z.eq_dec px 0);
      destruct (Z.eq_dec py 0); try lia; subst; congruence). lia. }
  assert (G : forall j, (4 <= j < 1024)%Z ->
                        byteAt (data spotFrame) j = ofZ 0).
  { intros j Hj. unfold byteAt.
    replace (j <? 0)%Z with false by (symmetry; apply Z.ltb_ge; lia).
    cbn [data spotFrame].
    rewrite nth_error_app2 by (cbn [length rgba whitePixel]; lia).
    rewrite nth_error_repeat by (cbn [length rgba whitePixel]; lia).
    reflexivity. }
  unfold pixelIs, pixelAt. cbn [width spotFrame].
  rewrite !G by lia. reflexivity.
Qed.

Lemma X17_isolated_pixel_rejected_witness :
  detectLaser spotFrame (settingsWith 100 ModeAuto 3) = notFound.
Proof.
  apply (X17_isolated_pixel_rejected spotFrame (settingsWith 100 ModeAuto 3)
           100 0 0).
  - reflexivity.
  - apply Qle_refl.
  - cbn [width spotFrame]. lia.
  - cbn [height spotFrame]. lia.
  - exact spotFrame_dimExcept.
Defined.

(** ** Auto mode covers the single colour modes *)

Section AutoMode.

Variables s s' : DetectorSettings.
Hypothesis Hsens : sensitivity s = sensitivity s'.
Hypothesis Hauto : colorMode s' = ModeAuto.

Lemma thresholds_agree :
  saturationThreshold s = saturationThreshold s'
  /\ bloomThreshold s = bloomThreshold s'.
Proof.
  unfold saturationThreshold, bloomThreshold, sensitivityFactor.
  rewrite Hsens. split; reflexivity.
Qed.

Lemma hits_agree (r g b : num) :
  isSaturatedGreen s r g b = isSaturatedGreen s' r g b
  /\ isGreenBloom s r g b = isGreenBloom s' r g b
  /\ isSaturatedRed s r g b = isSaturatedRed s' r g b
  /\ isRedBloom s r g b = isRedBloom s' r g b.
Proof.
  destruct thresholds_agree as [Hsat Hbloom].
  unfold isSaturatedGreen, isGreenBloom, isSaturatedRed, isRedBloom.
  rewrite Hsat, Hbloom. repeat split; reflexivity.
Qed.

Lemma score_defined (lead o1 o2 : Q) (brightness : num) :
  exists v,
    (Num lead
     + (if (Num lead - max (Num o1) (Num o2) >? Num 0)%num
        then (Num lead - max (Num o1) (Num o2)) * Num 2 else Num 0)
     + (if (brightness >? Num 250)%num then Num 100 else Num 0))%num = Num v.
Proof.
  unfold max. destruct (Qle_bool o1 o2); unfold sub, lift2;
    destruct (_ >? Num 0)%num; destruct (brightness >? Num 250)%num;
    unfold add, mul, lift2; eexists; reflexivity.
Qed.

(** What [classify] yields in auto mode for a pixel flagged in the mode of
    [s] with a positive score. *)
Lemma classify_auto (r g b brightness sc : num) (col : option Color) (q : Q) :
  classify s r g b brightness = (true, sc, col) ->
  sc = Num q -> 0 < q ->
  exists q' col',
    classify s' r g b brightness = (true, Num q', col') /\ q <= q'.
Proof.
  intros Hc Hsc Hpos. subst sc.
  destruct (classify_candidate s r g b brightness (Num q) col Hc)
    as [[qr [qg [qb [-> [-> ->]]]]] _].
  destruct (hits_agree (Num qr) (Num qg) (Num qb)) as [E1 [E2 [E3 E4]]].
  destruct (score_defined qg qr qb brightness) as [gs Hgs].
  destruct (score_defined qr qg qb brightness) as [rs Hrs].
  fold (greenDominance (Num qr) (Num qg) (Num qb)) in Hgs.
  fold (greenScore (Num qr) (Num qg) (Num qb) brightness) in Hgs.
  fold (redDominance (Num qr) (Num qg) (Num qb)) in Hrs.
  fold (redScore (Num qr) (Num qg) (Num qb) brightness) in Hrs.
  revert Hc. unfold classify. rewrite Hauto, <- E1, <- E2, <- E3, <- E4.
  rewrite Hgs, Hrs. cbn [greenEnabled redEnabled].
  destruct (colorMode s); cbn [greenEnabled redEnabled fst snd];
    destruct (isSaturatedGreen s (Num qr) (Num qg) (Num qb)
              || isGreenBloom s (Num qr) (Num qg) (Num qb));
    destruct (isSaturatedRed s (Num qr) (Num qg) (Num qb)
              || isRedBloom s (Num qr) (Num qg) (Num qb));
    cbn [fst snd];
    repeat match goal with
           | |- context [(Num ?a >? Num ?b)%num] =>
               let E := fresh "E" in
               destruct (Num a >? Num b)%num eqn:E;
               [apply gtb_Num in E | apply gtb_Num_false in E]
           end;
    intro Hc; inversion Hc; subst;
    try (exfalso; lra);
    first [ exists q; eexists; split; [reflexivity | lra]
          | exists rs; eexists; split; [reflexivity | lra]
          | exists gs; eexists; split; [reflexivity | lra] ].
Qed.

End AutoMode.

(** X18. Every pixel that the scan takes as a candidate in green mode or in
    red mode is also a candidate in auto mode at the same sensitivity, with
    a score at least as high. *)
Theorem X18_auto_covers_single_modes (im : ImageData)
    (s s' : DetectorSettings) (px py : Z) (c : Candidate) :
  sensitivity s = sensitivity s' -> colorMode s' = ModeAuto ->
  scanPixel im s px py = Some c ->
  exists c',
    scanPixel im s' px py = Some c'
    /\ cx c' = cx c /\ cy c' = cy c
    /\ (score c <=? score c')%num = true.
Proof.
  intros Hsens Hauto. unfold scanPixel.
  destruct (thresholds_agree s s' Hsens) as [_ <-].
  destruct (_ <? bloomThreshold s)%num; [discriminate|].
  destruct (classify s _ _ _ _) as [[isC sc] col] eqn:Ec.
  destruct isC; [|discriminate]. cbn [andb].
  destruct (sc >? Num 0)%num eqn:Epos; [|discriminate].
  intro Hc. apply gtb_true_inv in Epos.
  destruct Epos as [q [z [Hq [Hz Hpos]]]]. apply Num_inj in Hz. subst z.
  destruct (classify_auto s s' Hsens Hauto _ _ _ _ sc col q Ec Hq Hpos)
    as [q' [col' [Ec' Hle]]].
  rewrite Ec'. cbn [andb].
  assert (E : (Num q' >? Num 0)%num = true) by (apply gtb_Num; lra).
  rewrite E. eexists. split; [reflexivity|].
  inversion Hc; subst. cbn [cx cy score].
  repeat split. apply leb_Num. exact Hle.
Qed.

Lemma X18_auto_covers_single_modes_witness :
  exists c',
    scanPixel (frameOf 1 1 [(255, 100, 100)%N]) (settingsWith 100 ModeAuto 3)
              0 0 = Some c'
    /\ cx c' = 0%Z /\ cy c' = 0%Z
    /\ (Num 565 <=? score c')%num = true.
Proof.
  apply (X18_auto_covers_single_modes (frameOf 1 1 [(255, 100, 100)%N])
           (settingsWith 100 ModeRed 3) (settingsWith 100 ModeAuto 3) 0 0
           (mkCandidate 0 0 (Num 255) (Num 100) (Num 100) (Num 565)));
    reflexivity.
Defined.

(** ** The lag of the smoothed position after a jump *)

Section LagFacts.

Lemma skipn_repeat {A : Type} (a : A) (n j : nat) :
  skipn j (repeat a n) = repeat a (n - j).
Proof.
  revert j. induction n as [|n IH]; intro j.
  - rewrite skipn_nil. reflexivity.
  - destruct j as [|j]; [reflexivity|]. cbn [repeat skipn Nat.sub]. apply IH.
Qed.

(** The window after [j] positions [pb] have followed [n] positions [pa]. *)
Lemma lastn_two_runs {A : Type} (pa pb : A) (n j : nat) :
  (j <= n)%nat ->
  lastn n (repeat pa n ++ repeat pb j) = repeat pa (n - j) ++ repeat pb j.
Proof.
  intro Hj. unfold lastn. rewrite length_app, !repeat_length.
  replace (n + j - n)%nat with j by lia.
  rewrite skipn_app, skipn_repeat, repeat_length.
  replace (j - n)%nat with 0%nat by lia. reflexivity.
Qed.

(** The mean of [m] copies of one number followed by [j] copies of
    another. *)
Lemma mean_two_runs (a b : Q) (m j : nat) :
  (0 < m + j)%nat ->
  exists v,
    spec_mean (repeat (Num a) m ++ repeat (Num b) j) = Num v
    /\ v * inject_Z (Z.of_nat (m + j))
       == inject_Z (Z.of_nat m) * a + inject_Z (Z.of_nat j) * b.
Proof.
  intro Hpos. unfold spec_mean, spec_sum. rewrite fold_left_app.
  destruct (sum_repeat a m 0) as [s1 [Hs1 Hv1]]. rewrite Hs1.
  destruct (sum_repeat b j s1) as [s2 [Hs2 Hv2]]. rewrite Hs2.
  unfold lengthOf, ofZ, div. rewrite length_app, !repeat_length.
  set (n := inject_Z (Z.of_nat (m + j))).
  assert (Hn : 0 < n).
  { unfold n. change 0 with (inject_Z 0). rewrite <- Zlt_Qlt. lia. }
  destruct (Qeq_bool n 0) eqn:E.
  { apply Qeq_bool_eq in E. rewrite E in Hn. exfalso. lra. }
  eexists. split; [reflexivity|].
  rewrite Qred_correct, Hv2, Hv1. field. lra.
Qed.

End LagFacts.

(** X19. After a jump the smoothed position moves to the new position in
    equal steps. With window k, once the history holds k + 1 copies of a
    position a, the call with a position b that follows j earlier calls
    with b (j <= k) returns, in each coordinate,
    ((k - j) a + (j + 1) b) / (k + 1): the new position is reached at the
    (k + 1)-th call. *)
Theorem X19_lag_after_jump (k j : nat) (ax ay bx by' : Q) :
  (j <= k)%nat ->
  let w := ofZ (Z.of_nat k) in
  let pa := (Num ax, Num ay) in
  let pb := (Num bx, Num by') in
  let result :=
    smoothPosition (observeAll w (repeat pa (k + 1)) (repeat pb j))
                   (Num bx) (Num by') w in
  exists mx my,
    snd result = (Num mx, Num my)
    /\ mx * inject_Z (Z.of_nat (k + 1))
       == inject_Z (Z.of_nat (k - j)) * ax + inject_Z (Z.of_nat (j + 1)) * bx
    /\ my * inject_Z (Z.of_nat (k + 1))
       == inject_Z (Z.of_nat (k - j)) * ay + inject_Z (Z.of_nat (j + 1)) * by'.
Proof.
  intros Hj w pa pb result.
  assert (Hh : fst result = repeat pa (k - j) ++ repeat pb (j + 1)).
  { unfold result, w. rewrite smoothPosition_lastn.
    - rewrite observeAll_lastn by (rewrite repeat_length; lia).
      rewrite lastn_lastn_app, <- app_assoc.
      replace (repeat pb j ++ [(Num bx, Num by')]) with (repeat pb (j + 1))
        by (rewrite repeat_app; reflexivity).
      rewrite lastn_two_runs by lia.
      replace (k + 1 - (j + 1))%nat with (k - j)%nat by lia. reflexivity.
    - rewrite observeAll_lastn by (rewrite repeat_length; lia).
      apply lastn_length. }
  assert (Hm := smoothPosition_mean
                  (observeAll w (repeat pa (k + 1)) (repeat pb j))
                  (Num bx) (Num by') w).
  fold result in Hm. rewrite Hh in Hm.
  assert (Hne : repeat pa (k - j) ++ repeat pb (j + 1) <> []).
  { replace (j + 1)%nat with (S j) by lia. cbn [repeat].
    intro E. apply app_eq_nil in E. destruct E as [_ E]. discriminate. }
  specialize (Hm Hne). rewrite !map_app, !map_repeat in Hm.
  cbn [fst snd pa pb] in Hm.
  destruct (mean_two_runs ax bx (k - j) (j + 1)) as [mx [Hmx Hvx]]; [lia|].
  destruct (mean_two_runs ay by' (k - j) (j + 1)) as [my [Hmy Hvy]]; [lia|].
  rewrite Hmx, Hmy in Hm. exists mx, my. split; [exact Hm|].
  replace (k - j + (j + 1))%nat with (k + 1)%nat in Hvx, Hvy by lia.
  split; assumption.
Qed.

Lemma X19_lag_after_jump_witness :
  exists mx my,
    snd (smoothPosition
           (observeAll (ofZ (Z.of_nat 3)) (repeat (Num 0, Num 0) (3 + 1))
                       (repeat (Num 8, Num 4) 1))
           (Num 8) (Num 4) (ofZ (Z.of_nat 3)))
    = (Num mx, Num my)
    /\ mx * inject_Z (Z.of_nat (3 + 1))
       == inject_Z (Z.of_nat (3 - 1)) * 0 + inject_Z (Z.of_nat (1 + 1)) * 8
    /\ my * inject_Z (Z.of_nat (3 + 1))
       == inject_Z (Z.of_nat (3 - 1)) * 0 + inject_Z (Z.of_nat (1 + 1)) * 4.
Proof.
  assert (H : (1 <= 3)%nat) by lia.
  exact (X19_lag_after_jump 3 1 0 0 8 4 H).
Defined.

Example lag_value :
  snd (smoothPosition
         (observeAll (Num 3) (repeat (Num 0, Num 0) 4) [(Num 8, Num 4)])
         (Num 8) (Num 4) (Num 3))
  = (Num 4, Num 2).
Proof. vm_compute. reflexivity. Qed.
